(** * Background agents: BaseAgent, AgentManager and the agent registry

    A shallow embedding of the agent core of the background-agents
    framework: [BaseAgent] (src/core/BaseAgent.js), [AgentManager]
    (src/core/AgentManager.js) and the registry the manager delegates to,
    the dashboard routes and helpers that drive them
    (src/dashboard/Dashboard.js), and the bookkeeping of the
    DataProcessorAgent, FileWatcherAgent and ApiMonitorAgent subclasses.
    Asynchronous methods are modelled as state transformers that return an
    [outcome] (a resolved value or a thrown JS value); timestamps taken with
    [new Date()] are passed in as an explicit clock reading [now]. *)

From Stdlib Require Import ZArith Lia.
From stdpp Require Import base gmap strings list pretty.

Open Scope Z_scope.

(** ** JavaScript values, outcomes and log entries *)
Module JS.

(** The scalar JS values the modelled code stores, passes or throws. *)
Inductive jsval :=
| JUndefined
| JNull
| JBool (b : bool)
| JNum (z : Z)
| JStr (s : string)
| JError (name msg : string).

(** JS truthiness, as used by [if (this.schedule)]. *)
Definition truthy (v : jsval) : bool :=
  match v with
  | JUndefined | JNull => false
  | JBool b => b
  | JNum z => negb (Z.eqb z 0)
  | JStr s => negb (String.eqb s "")
  | JError _ _ => true
  end.

(** Settlement of an async call: resolved with a value, or rejected with the
    thrown value. *)
Inductive outcome (A : Type) :=
| Ok (a : A)
| Throw (e : jsval).
Arguments Ok {A} a.
Arguments Throw {A} e.

(** What the [Logger] methods record. *)
Inductive log_entry :=
| LInfo (m : string)
| LWarn (m : string)
| LError (m : string) (e : jsval)
| LDebug (m : string).

Definition cat (a b : string) : string := String.append a b.

End JS.
Import JS.

(** ** BaseAgent *)
Module BaseAgent.

(** The resource returned by [cron.schedule(...)]; [cron_started] is set by
    [task.start()] and cleared by [task.stop()]. *)
Record CronTask := mkCronTask {
  cron_expr : jsval;
  cron_started : bool
}.

(** The configuration object handed to [new BaseAgent(config)]. *)
Record Config := mkConfig {
  cfg_id : string;
  cfg_type : jsval;
  cfg_schedule : jsval
}.

(** The fields of a [BaseAgent] instance. [liveTasks] is node-cron's side of
    the [task] field: the number of cron tasks this instance created that
    are still started (fire on their schedule). *)
Record Agent := mkAgent {
  id : string;
  type : jsval;
  schedule : jsval;
  isRunning : bool;
  task : option CronTask;
  lastRun : option Z;
  runCount : Z;
  errorCount : Z;
  log : list log_entry;
  liveTasks : nat
}.

Definition set_isRunning (b : bool) (a : Agent) : Agent :=
  mkAgent (id a) (type a) (schedule a) b (task a) (lastRun a)
    (runCount a) (errorCount a) (log a) (liveTasks a).

Definition set_task (t : option CronTask) (n : nat) (a : Agent) : Agent :=
  mkAgent (id a) (type a) (schedule a) (isRunning a) t (lastRun a)
    (runCount a) (errorCount a) (log a) n.

Definition set_lastRun (d : option Z) (a : Agent) : Agent :=
  mkAgent (id a) (type a) (schedule a) (isRunning a) (task a) d
    (runCount a) (errorCount a) (log a) (liveTasks a).

Definition set_runCount (n : Z) (a : Agent) : Agent :=
  mkAgent (id a) (type a) (schedule a) (isRunning a) (task a) (lastRun a)
    n (errorCount a) (log a) (liveTasks a).

Definition set_errorCount (n : Z) (a : Agent) : Agent :=
  mkAgent (id a) (type a) (schedule a) (isRunning a) (task a) (lastRun a)
    (runCount a) n (log a) (liveTasks a).

(** [this.logger.xxx(...)]: append to the instance's log. *)
Definition logs (es : list log_entry) (a : Agent) : Agent :=
  mkAgent (id a) (type a) (schedule a) (isRunning a) (task a) (lastRun a)
    (runCount a) (errorCount a) (log a ++ es) (liveTasks a).

Definition emit (e : log_entry) (a : Agent) : Agent := logs [e] a.

(** [constructor(config)] *)
Definition construct (config : Config) : Agent :=
  mkAgent (cfg_id config) (cfg_type config) (cfg_schedule config)
    false None None 0 0 [] 0.

(** The pattern check [cron.schedule(expr, cb, options)] runs before it
    builds the task (node-cron validates the expression and throws on a
    rejected one): a pattern that is not a string is refused with
    [TypeError('pattern must be a string!')]; a string pattern is refused
    when [checkFields], node-cron's check of the pattern's fields, returns
    the error it throws. [None]: the pattern is accepted. *)
Definition cron_validate (checkFields : string -> option jsval) (expr : jsval)
    : option jsval :=
  match expr with
  | JStr pattern => checkFields pattern
  | _ => Some (JError "TypeError" "pattern must be a string!")
  end.

(** [cron.schedule(expr, cb, {scheduled: false})] on an accepted pattern,
    followed by [task.start()]. *)
Definition cron_schedule_started (expr : jsval) : CronTask :=
  mkCronTask expr true.

(** The agent-type specific parts: the [run()] body (what the subclass does
    when invoked on the instance) and the overridable [handleError] hook,
    which may log and either return or throw. *)
Section Methods.

Variable run : Agent -> outcome jsval.
Variable handleError : Agent -> jsval -> list log_entry * outcome unit.
(** node-cron's check of a string pattern's fields (see [cron_validate]). *)
Variable checkFields : string -> option jsval.

(** [async execute()] *)
Definition execute (now : Z) (a : Agent) : Agent * outcome unit :=
  let a := emit (LDebug (cat "Executing agent " (id a))) a in
  let a := set_lastRun (Some now) a in
  let a := set_runCount (runCount a + 1) a in
  match run a with
  | Ok _ => (emit (LDebug (cat "Agent " (cat (id a) " executed successfully"))) a, Ok tt)
  | Throw error =>
      let a := set_errorCount (errorCount a + 1) a in
      let a := emit (LError (cat "Agent " (cat (id a) " execution failed:")) error) a in
      let '(es, r) := handleError a error in
      (logs es a, r)
  end.

(** [async start()] *)
Definition start (now : Z) (a : Agent) : Agent * outcome unit :=
  if isRunning a then
    (emit (LWarn (cat "Agent " (cat (id a) " is already running"))) a, Ok tt)
  else
    let a := emit (LInfo (cat "Starting agent " (id a))) a in
    if truthy (schedule a) then
      match cron_validate checkFields (schedule a) with
      | Some error =>
          (* [cron.schedule] throws: [this.task] is not assigned and the
             call rejects before [this.isRunning = true] *)
          (a, Throw error)
      | None =>
          let a := set_task (Some (cron_schedule_started (schedule a))) (S (liveTasks a)) a in
          (set_isRunning true a, Ok tt)
      end
    else
      (* Run immediately if no schedule *)
      match execute now a with
      | (a, Ok _) => (set_isRunning true a, Ok tt)
      | (a, Throw e) => (a, Throw e)
      end.

(** [async stop()] *)
Definition stop (a : Agent) : Agent * outcome unit :=
  if negb (isRunning a) then
    (emit (LWarn (cat "Agent " (cat (id a) " is not running"))) a, Ok tt)
  else
    let a := emit (LInfo (cat "Stopping agent " (id a))) a in
    let a := match task a with
             | Some _ => set_task None (Nat.pred (liveTasks a)) a
             | None => a
             end in
    (set_isRunning false a, Ok tt).

(** A firing of the cron trigger at time [now]: the scheduled callback
    [async () => { await this.execute(); }] runs when the instance holds a
    started task; the callback's promise is not observed by anyone. *)
Definition fire (now : Z) (a : Agent) : Agent :=
  match task a with
  | Some t => if cron_started t then fst (execute now a) else a
  | None => a
  end.

End Methods.

(** The default [handleError]: log and return. *)
Definition defaultHandleError (a : Agent) (error : jsval) : list log_entry * outcome unit :=
  ([LError (cat "Error in agent " (cat (id a) ":")) error], Ok tt).

(** The default [run()]: throws. *)
Definition defaultRun (a : Agent) : outcome jsval :=
  Throw (JError "Error" "run() method must be implemented by subclass").

(** [getStatus()] *)
Record Status := mkStatus {
  st_id : string;
  st_type : jsval;
  st_isRunning : bool;
  st_lastRun : option Z;
  st_runCount : Z;
  st_errorCount : Z;
  st_schedule : jsval
}.

Definition getStatus (a : Agent) : Status :=
  mkStatus (id a) (type a) (isRunning a) (lastRun a) (runCount a)
    (errorCount a) (schedule a).

(** Observable events of [retry]: the i-th call of [operation] and a
    [sleep(ms)]. *)
Inductive event :=
| ECall (i : Z)
| ESleep (ms : Z).

(** The loop of [async retry(operation, maxRetries = 3, delay = 1000)] from
    iteration [i]; [operation i] is the settlement of its call number [i].
    [fuel] bounds the iterations still to run; [retry] passes enough. A loop
    that ends without returning resolves to [undefined]. *)
Fixpoint retry_loop (operation : Z -> outcome jsval) (maxRetries delay i : Z)
    (fuel : nat) : outcome jsval * list event :=
  match fuel with
  | O => (Ok JUndefined, [])
  | S fuel' =>
      if i <? maxRetries then
        match operation i with
        | Ok v => (Ok v, [ECall i])
        | Throw error =>
            if i =? maxRetries - 1 then (Throw error, [ECall i])
            else
              let '(r, tr) := retry_loop operation maxRetries delay (i + 1) fuel' in
              (r, ECall i :: ESleep (delay * 2 ^ i) :: tr)
        end
      else (Ok JUndefined, [])
  end.

Definition retry (operation : Z -> outcome jsval) (maxRetries delay : Z)
    : outcome jsval * list event :=
  retry_loop operation maxRetries delay 0 (Z.to_nat maxRetries).

End BaseAgent.

(** ** AgentManager *)
Module AgentManager.
Import BaseAgent.

(** A JS [Map]: entries in insertion order, keys unique. *)
Definition JSMap (V : Type) := list (string * V).

Fixpoint map_get {V} (k : string) (m : JSMap V) : option V :=
  match m with
  | [] => None
  | (k', v) :: m' => if String.eqb k k' then Some v else map_get k m'
  end.

(** [Map.prototype.set]: an existing key keeps its position. *)
Fixpoint map_set {V} (k : string) (v : V) (m : JSMap V) : JSMap V :=
  match m with
  | [] => [(k, v)]
  | (k', v') :: m' =>
      if String.eqb k k' then (k, v) :: m' else (k', v') :: map_set k v m'
  end.

Record Manager := mkManager {
  agents : JSMap Agent;
  mgr_isRunning : bool;
  mgr_log : list log_entry
}.

Definition mlog (e : log_entry) (m : Manager) : Manager :=
  mkManager (agents m) (mgr_isRunning m) (mgr_log m ++ [e]).

Definition set_agents (ag : JSMap Agent) (m : Manager) : Manager :=
  mkManager ag (mgr_isRunning m) (mgr_log m).

(** [constructor()] *)
Definition newManager : Manager := mkManager [] false [].

(** [getAgentConfigs()] *)
Definition getAgentConfigs : list Config :=
  [mkConfig "monitor-agent" (JStr "monitor") (JStr "*/5 * * * *")].

(** [createAgent(config)] is [new BaseAgent(config)]; a subclass of the
    manager may override it, and construction may throw. *)
Definition createAgentDefault (config : Config) : outcome Agent :=
  Ok (construct config).

(** One iteration of the loop body of [loadAgents()]. *)
Definition loadAgent (createAgent : Config -> outcome Agent) (m : Manager)
    (config : Config) : Manager :=
  match createAgent config with
  | Ok agent =>
      mlog (LInfo (cat "Loaded agent: " (cfg_id config)))
        (set_agents (map_set (cfg_id config) agent (agents m)) m)
  | Throw error =>
      mlog (LError (cat "Failed to load agent " (cat (cfg_id config) ":")) error) m
  end.

(** [async loadAgents()], over the list [getAgentConfigs()] returned. *)
Definition loadAgents (createAgent : Config -> outcome Agent)
    (agentConfigs : list Config) (m : Manager) : Manager :=
  fold_left (loadAgent createAgent) agentConfigs
    (mlog (LInfo "Loading agents...") m).

(** The loop of [async shutdown()]: [agent.stop()] on every entry in map
    order, a throw caught and logged. It returns the manager log and the
    instances as [stop] left them. *)
Fixpoint stop_all (stopAgent : Agent -> Agent * outcome unit)
    (l : JSMap Agent) (lg : list log_entry)
    : list log_entry * JSMap Agent :=
  match l with
  | [] => (lg, [])
  | (agentId, agent) :: l' =>
      let '(agent', r) := stopAgent agent in
      let lg := match r with
                | Ok _ => lg ++ [LInfo (cat "Stopped agent: " agentId)]
                | Throw error => lg ++ [LError (cat "Error stopping agent " (cat agentId ":")) error]
                end in
      let '(lg', rest) := stop_all stopAgent l' lg in
      (lg', (agentId, agent') :: rest)
  end.

(** [async shutdown()]: the new manager state and the stopped instances. *)
Definition shutdown (stopAgent : Agent -> Agent * outcome unit) (m : Manager)
    : Manager * JSMap Agent :=
  let lg := mgr_log m ++ [LInfo "Shutting down all agents..."] in
  let '(lg', stopped) := stop_all stopAgent (agents m) lg in
  (mkManager [] false lg', stopped).

(** [BaseAgent.stop] as the [stop()] of every instance. *)
Definition baseStop (a : Agent) : Agent * outcome unit :=
  stop a.

Section Status.

Context {S : Type}.
(** The instances' [getStatus()] (BaseAgent's, or a subclass override that
    extends it). *)
Variable statusOf : Agent -> S.

(** [getAgentStatus(agentId)]: the status, or [null] ([None]); the manager
    is returned as it was read. *)
Definition getAgentStatus (agentId : string) (m : Manager) : option S * Manager :=
  match map_get agentId (agents m) with
  | Some agent => (Some (statusOf agent), m)
  | None => (None, m)
  end.

(** [getAllAgentStatuses()]: the object [statuses], as its list of own
    entries in insertion order. *)
Fixpoint statuses_of (l : JSMap Agent) (statuses : list (string * S))
    : list (string * S) :=
  match l with
  | [] => statuses
  | (agentId, agent) :: l' => statuses_of l' (statuses ++ [(agentId, statusOf agent)])
  end.

Definition getAllAgentStatuses (m : Manager) : list (string * S) * Manager :=
  (statuses_of (agents m) [], m).

End Status.

End AgentManager.

(** ** Agent registry *)
Module AgentRegistry.
Import BaseAgent.

(** A configuration object: field name to value. *)
Abbreviation ConfigObj := (gmap string jsval).

(** What [createInstance] hands to the factory. *)
Record InstanceConfig := mkInstanceConfig {
  ic_id : string;
  ic_type : string;
  ic_config : ConfigObj
}.

(** Modelled from the spec: the catalog entry of the agent registry
    (AgentTypeDescriptor, spec section 3), whose source is not in src/. *)
Record Descriptor := mkDescriptor {
  d_name : string;
  d_factory : InstanceConfig -> Agent;
  d_persistedConfig : option ConfigObj
}.

(** Modelled from the spec: [createInstance(name, overrideConfig)] of the
    registry (spec section 4.1), not in src/: the merged configuration is
    [persistedConfig] overridden field by field by [overrideConfig]
    ([{...persistedConfig, ...overrideConfig}], the left-biased union), the
    id is the type name with the creation time, and a name absent from the
    catalog fails with NotFound. *)
Definition mergeConfig (persisted override : ConfigObj) : ConfigObj :=
  override ∪ persisted.

(** Modelled from the spec: [createInstance(name, overrideConfig)]
    (spec section 4.1). *)
Definition createInstance (catalog : gmap string Descriptor) (now : Z)
    (name : string) (overrideConfig : ConfigObj) : outcome Agent :=
  match catalog !! name with
  | None => Throw (JError "NotFoundError" (cat "Agent type not found: " name))
  | Some d =>
      let persisted := default ∅ (d_persistedConfig d) in
      Ok (d_factory d (mkInstanceConfig (cat name (cat "-" (pretty now))) name
                        (mergeConfig persisted overrideConfig)))
  end.

End AgentRegistry.

(** ** Descriptions used in the statements *)
Module Describe.
Import BaseAgent.

(** The trace of [k+1] attempts numbered from [i]: a call of attempt [j],
    then a sleep of [delay * 2^j] after every attempt but the last. *)
Fixpoint attempts_from (delay i : Z) (k : nat) : list event :=
  match k with
  | O => [ECall i]
  | S k' => ECall i :: ESleep (delay * 2 ^ i) :: attempts_from delay (i + 1) k'
  end.

(** [n] scheduled firings at the times [ts]. *)
Definition fire_all (run : Agent -> outcome jsval)
    (handleError : Agent -> jsval -> list log_entry * outcome unit)
    (ts : list Z) (a : Agent) : Agent :=
  fold_left (fun a now => fire run handleError now a) ts a.

(** Lifecycle calls on one instance. *)
Inductive action :=
| AStart (now : Z)
| AStop
| AFire (now : Z)
| AExecute (now : Z).

Definition step (run : Agent -> outcome jsval)
    (handleError : Agent -> jsval -> list log_entry * outcome unit)
    (checkFields : string -> option jsval) (a : Agent) (act : action) : Agent :=
  match act with
  | AStart now => fst (start run handleError checkFields now a)
  | AStop => fst (stop a)
  | AFire now => fire run handleError now a
  | AExecute now => fst (execute run handleError now a)
  end.

Definition steps run handleError checkFields (acts : list action) (a : Agent) : Agent :=
  fold_left (step run handleError checkFields) acts a.

(** One active trigger at most: node-cron holds a started task of the
    instance exactly when its [task] field is set, and only while it runs. *)
Definition task_inv (a : Agent) : Prop :=
  liveTasks a = (if task a then 1%nat else 0%nat) /\
  (task a <> None -> isRunning a = true).

End Describe.

(** ** The rest of AgentManager *)
Module ManagerOps.
Import BaseAgent AgentManager.

(** [async initialize()] *)
Definition initialize (m : Manager) : Manager :=
  mkManager (agents m) true (mgr_log m ++ [LInfo "Initializing Agent Manager..."]).

(** [async startAgent(agentId)]: the instance is mutated in place, so the
    map entry keeps its key and position; a rejected [start()] rejects the
    call after its partial effects. *)
Definition startAgent (run : Agent -> outcome jsval)
    (handleError : Agent -> jsval -> list log_entry * outcome unit)
    (checkFields : string -> option jsval)
    (now : Z) (agentId : string) (m : Manager) : outcome unit * Manager :=
  match map_get agentId (agents m) with
  | Some agent =>
      let '(agent', r) := start run handleError checkFields now agent in
      let m := set_agents (map_set agentId agent' (agents m)) m in
      match r with
      | Ok _ => (Ok tt, mlog (LInfo (cat "Started agent: " agentId)) m)
      | Throw e => (Throw e, m)
      end
  | None => (Ok tt, m)
  end.

(** [async stopAgent(agentId)], with the instances' [stop()]. *)
Definition stopAgent (stopImpl : Agent -> Agent * outcome unit)
    (agentId : string) (m : Manager) : outcome unit * Manager :=
  match map_get agentId (agents m) with
  | Some agent =>
      let '(agent', r) := stopImpl agent in
      let m := set_agents (map_set agentId agent' (agents m)) m in
      match r with
      | Ok _ => (Ok tt, mlog (LInfo (cat "Stopped agent: " agentId)) m)
      | Throw e => (Throw e, m)
      end
  | None => (Ok tt, m)
  end.

End ManagerOps.

(** ** Dashboard (src/dashboard/Dashboard.js) *)
Module Dashboard.
Import BaseAgent AgentManager ManagerOps.

(** The JSON bodies the routes send: [{success: true, data}],
    [{success: true, message}] and [{success: false, error}] (an [undefined]
    error is dropped by JSON serialisation: [None]). *)
Inductive Body (D : Type) :=
| BData (d : D)
| BMessage (msg : string)
| BError (err : option string).
Arguments BData {D} d.
Arguments BMessage {D} msg.
Arguments BError {D} err.

Record Response (D : Type) := mkResponse { res_status : Z; res_body : Body D }.
Arguments mkResponse {D} res_status res_body.
Arguments res_status {D} r.
Arguments res_body {D} r.

(** [error.message] *)
Definition message_of (e : jsval) : option string :=
  match e with
  | JError _ msg => Some msg
  | _ => None
  end.

(** A route whose handler is [await this.agentManager.<methodName>(req.params.id)]
    followed by [res.json({success: true, message: okMessage})], inside a
    [try] whose [catch] answers 500 with [error.message]. [method] is the
    property read from the manager object: a function, or [None] when the
    object has no such property ([undefined]), in which case the call throws
    a [TypeError] inside the handler's [try]. *)
Definition methodRoute (method : option (string -> Manager -> outcome unit * Manager))
    (methodName okMessage agentId : string) (m : Manager) : Response unit * Manager :=
  match method with
  | Some f =>
      match f agentId m with
      | (Ok _, m') => (mkResponse 200 (BMessage okMessage), m')
      | (Throw error, m') => (mkResponse 500 (BError (message_of error)), m')
      end
  | None =>
      (mkResponse 500 (BError (Some (cat "this.agentManager." (cat methodName " is not a function")))), m)
  end.

(** [POST /api/agents/:id/run] *)
Definition runRoute runAgentNow := methodRoute runAgentNow "runAgentNow" "Agent executed".

(** The property [runAgentNow] of the manager the dashboard drives: the
    class of src/core/AgentManager.js declares no such method (its methods
    are initialize, loadAgents, createAgent, getAgentConfigs, startAgent,
    stopAgent, shutdown, getAgentStatus and getAllAgentStatuses) and its
    constructor sets only [logger], [agents] and [isRunning], so the
    property reads [undefined]. *)
Definition agentManager_runAgentNow : option (string -> Manager -> outcome unit * Manager) := None.

(** [\w] of JS regular expressions: [A-Za-z0-9_]. *)
Definition is_word (c : Ascii.ascii) : bool :=
  let n := Ascii.nat_of_ascii c in
  (Nat.leb 65 n && Nat.leb n 90) || (Nat.leb 97 n && Nat.leb n 122) ||
  (Nat.leb 48 n && Nat.leb n 57) || Nat.eqb n 95.

Definition is_sep (c : Ascii.ascii) : bool :=
  let n := Ascii.nat_of_ascii c in Nat.eqb n 45 || Nat.eqb n 95.

(** [String.prototype.toUpperCase] on the characters [\w] can match. *)
Definition upper (c : Ascii.ascii) : Ascii.ascii :=
  let n := Ascii.nat_of_ascii c in
  if Nat.leb 97 n && Nat.leb n 122 then Ascii.ascii_of_nat (n - 32) else c.

(** [str.replace(/(?:^|[-_])(\w)/g, (_, c) => c.toUpperCase())]: the global
    scan from the left; [atStart] is whether [^] can still match. A match
    is replaced by its upper-cased word character and the scan resumes
    after it; otherwise one character is copied. *)
Fixpoint pascal_from (atStart : bool) (s : string) : string :=
  match s with
  | EmptyString => EmptyString
  | String c rest =>
      if atStart && is_word c then String (upper c) (pascal_from false rest)
      else if is_sep c then
        match rest with
        | String c2 rest2 =>
            if is_word c2 then String (upper c2) (pascal_from false rest2)
            else String c (pascal_from false rest)
        | EmptyString => String c EmptyString
        end
      else String c (pascal_from false rest)
  end.

Definition toPascalCase (str : string) : string := pascal_from true str.

(** [a || b] *)
Definition js_or (a b : jsval) : jsval := if truthy a then a else b.

End Dashboard.

(** ** DataProcessorAgent (the second class of the agents bundle) *)
Module DataProcessor.
Import BaseAgent.

(** [files.slice(i, j)] for [0 <= i <= j]. *)
Definition slice {A} (l : list A) (i j : Z) : list A :=
  firstn (Z.to_nat j - Z.to_nat i) (skipn (Z.to_nat i) l).

(** The loop of [createBatches(files, batchSize)] from index [i]. The JS
    loop does not terminate when [batchSize <= 0]; [fuel] bounds the
    iterations, and [createBatches] passes one per file, enough when
    [batchSize >= 1]. *)
Fixpoint batches_from {A} (files : list A) (batchSize i : Z) (fuel : nat) : list (list A) :=
  match fuel with
  | O => []
  | S fuel' =>
      if i <? Z.of_nat (length files) then
        slice files i (i + batchSize) :: batches_from files batchSize (i + batchSize) fuel'
      else []
  end.

Definition createBatches {A} (files : list A) (batchSize : Z) : list (list A) :=
  batches_from files batchSize 0 (length files).

(** The instance: the [BaseAgent] fields (its [errorCount] is the one the
    subclass increments per failed file) and [processedCount]. *)
Record DPAgent := mkDPAgent {
  dp_base : Agent;
  processedCount : Z
}.

Definition dp_log (e : log_entry) (dp : DPAgent) : DPAgent :=
  mkDPAgent (emit e (dp_base dp)) (processedCount dp).

(** One settled [processFile(file)] promise seen by the [forEach] of
    [processBatch]. *)
Definition settle (processFile : string -> outcome unit) (dp : DPAgent) (file : string)
    : DPAgent :=
  match processFile file with
  | Ok _ => mkDPAgent (dp_base dp) (processedCount dp + 1)
  | Throw reason =>
      let b := dp_base dp in
      let b := set_errorCount (errorCount b + 1) b in
      mkDPAgent (emit (LError (cat "Failed to process file " (cat file ":")) reason) b)
        (processedCount dp)
  end.

(** [async processBatch(files)]: [processFile] gives the settlement of each
    file's promise; [Promise.allSettled] never rejects. *)
Definition processBatch (processFile : string -> outcome unit) (files : list string)
    (dp : DPAgent) : DPAgent :=
  fold_left (settle processFile) files dp.

(** The [for] loop over the batches in [run()], from batch number [i] of
    [n]; the trace records the [sleep(1000)] calls. *)
Fixpoint batch_loop (processFile : string -> outcome unit) (n i : nat)
    (batches : list (list string)) (dp : DPAgent) : DPAgent * list event :=
  match batches with
  | [] => (dp, [])
  | batch :: rest =>
      let dp := dp_log (LInfo (cat "Processing batch " (cat (pretty (S i))
                  (cat "/" (cat (pretty n) (cat " (" (cat (pretty (length batch)) " files)")))))))
                  dp in
      let dp := processBatch processFile batch dp in
      let sleeps := if Z.of_nat i <? Z.of_nat n - 1 then [ESleep 1000] else [] in
      let '(dp, tr) := batch_loop processFile n (S i) rest dp in
      (dp, sleeps ++ tr)
  end.

(** The part of [run()] after [getFilesToProcess()] resolved with [files]. *)
Definition processFiles (processFile : string -> outcome unit) (batchSize : Z)
    (files : list string) (dp : DPAgent) : DPAgent * list event :=
  if Nat.eqb (length files) 0 then (dp_log (LInfo "No files to process") dp, [])
  else
    let dp := dp_log (LInfo (cat "Found " (cat (pretty (length files)) " files to process"))) dp in
    let batches := createBatches files batchSize in
    let '(dp, tr) := batch_loop processFile (length batches) 0 batches dp in
    (dp_log (LInfo (cat "Data processing completed. Processed: "
       (cat (pretty (processedCount dp)) (cat ", Errors: " (pretty (errorCount (dp_base dp)))))))
       dp, tr).

End DataProcessor.

(** ** FileWatcherAgent (src/agents/file-watcher-agent.js) *)
Module FileWatcher.
Import BaseAgent.

Record FileEvent := mkFileEvent {
  ev_type : string;
  ev_path : string;
  ev_timestamp : Z;
  ev_size : jsval
}.

(** The instance fields [handleFileEvent] uses; the constructor sets
    [fileEvents = []] and [maxEvents = 1000]. *)
Record FWAgent := mkFWAgent {
  fw_base : Agent;
  fileEvents : list FileEvent;
  maxEvents : nat
}.

(** [async handleFileEvent(eventType, filePath)]: [shouldProcessFile] is the
    extension filter, [getFileSize] the size read, [processFileEvent] the
    settlement of the per-action processing. *)
Definition handleFileEvent (shouldProcessFile : string -> bool)
    (getFileSize : string -> jsval) (processFileEvent : FileEvent -> outcome unit)
    (now : Z) (eventType filePath : string) (fw : FWAgent) : FWAgent :=
  if negb (shouldProcessFile filePath) then fw
  else
    let event := mkFileEvent eventType filePath now (getFileSize filePath) in
    let evs := event :: fileEvents fw in
    let evs := if Nat.ltb (maxEvents fw) (length evs) then firstn (maxEvents fw) evs else evs in
    let b := emit (LInfo (cat "File " (cat eventType (cat ": " filePath)))) (fw_base fw) in
    let b := match processFileEvent event with
             | Ok _ => b
             | Throw error =>
                 emit (LError (cat "Error processing file event for " (cat filePath ":")) error) b
             end in
    mkFWAgent b evs (maxEvents fw).

(** A sequence of chokidar notifications [(eventType, filePath, now)]. *)
Definition handleFileEvents shouldProcessFile getFileSize processFileEvent
    (notes : list (string * string * Z)) (fw : FWAgent) : FWAgent :=
  fold_left (fun fw '(t, p, now) =>
               handleFileEvent shouldProcessFile getFileSize processFileEvent now t p fw)
            notes fw.

End FileWatcher.

(** ** ApiMonitorAgent (the first class of the agents bundle) *)
Module ApiMonitor.
Import BaseAgent AgentManager.

Record Endpoint := mkEndpoint {
  ep_name : string;
  ep_url : string;
  ep_expectedStatus : jsval
}.

(** The [result] objects stored in [monitoringResults]. *)
Record Result := mkResult {
  r_endpoint : string;
  r_url : string;
  r_status : string;
  r_statusCode : option Z;
  r_error : option (option string);
  r_responseTime : Z;
  r_timestamp : Z;
  r_expectedStatus : option jsval;
  r_isHealthy : bool
}.

(** The instance fields [monitorEndpoint] uses. [failureCalls] records the
    calls of [handleEndpointFailure(endpoint, result, failures)] and
    [alertPosts] the webhook posts [sendAlert] makes (it catches its own
    errors). *)
Record ApiAgent := mkApiAgent {
  api_base : Agent;
  alertWebhook : jsval;
  alertThreshold : Z;
  monitoringResults : JSMap Result;
  consecutiveFailures : JSMap Z;
  failureCalls : list (string * Z);
  alertPosts : list (string * Z)
}.

Definition api_log (e : log_entry) (s : ApiAgent) : ApiAgent :=
  mkApiAgent (emit e (api_base s)) (alertWebhook s) (alertThreshold s)
    (monitoringResults s) (consecutiveFailures s) (failureCalls s) (alertPosts s).

(** [isResponseHealthy(response, endpoint)]: strict equality with
    [endpoint.expectedStatus || 200]. *)
Definition isResponseHealthy (status : Z) (ep : Endpoint) : bool :=
  match Dashboard.js_or (ep_expectedStatus ep) (JNum 200) with
  | JNum z => Z.eqb status z
  | _ => false
  end.

(** [async handleEndpointFailure(endpoint, result, consecutiveFailures)] *)
Definition handleEndpointFailure (ep : Endpoint) (failures : Z) (s : ApiAgent) : ApiAgent :=
  let s := api_log (LError (cat "Endpoint " (cat (ep_name ep)
             (cat " has failed " (cat (pretty failures) " times consecutively")))) JUndefined) s in
  let s := mkApiAgent (api_base s) (alertWebhook s) (alertThreshold s) (monitoringResults s)
             (consecutiveFailures s) (failureCalls s ++ [(ep_name ep, failures)]) (alertPosts s) in
  if truthy (alertWebhook s) then
    mkApiAgent (api_base s) (alertWebhook s) (alertThreshold s) (monitoringResults s)
      (consecutiveFailures s) (failureCalls s) (alertPosts s ++ [(ep_name ep, failures)])
  else s.

(** [async monitorEndpoint(endpoint)]: [makeRequest] is the settlement of
    the axios call (any HTTP status resolves, as [validateStatus] returns
    [true]); [startTime] and [endTime] are the two clock readings. The
    emoji prefixes of the debug, warn and error lines are left out. *)
Definition monitorEndpoint (makeRequest : outcome Z) (startTime endTime : Z)
    (ep : Endpoint) (s : ApiAgent) : ApiAgent :=
  let endpointKey := cat (ep_name ep) (cat "-" (ep_url ep)) in
  let responseTime := endTime - startTime in
  match makeRequest with
  | Ok status =>
      let result := mkResult (ep_name ep) (ep_url ep) "success" (Some status) None
                      responseTime endTime (Some (Dashboard.js_or (ep_expectedStatus ep) (JNum 200)))
                      (isResponseHealthy status ep) in
      let s := mkApiAgent (api_base s) (alertWebhook s) (alertThreshold s)
                 (map_set endpointKey result (monitoringResults s))
                 (map_set endpointKey 0 (consecutiveFailures s)) (failureCalls s) (alertPosts s) in
      if r_isHealthy result then
        api_log (LDebug (cat (ep_name ep) (cat ": " (cat (pretty responseTime) "ms")))) s
      else
        let s := api_log (LWarn (cat (ep_name ep) (cat ": Unexpected status " (pretty status)))) s in
        api_log (LWarn (cat "Endpoint " (cat (ep_name ep)
                  (cat " returned unexpected status: " (pretty status))))) s
  | Throw error =>
      let result := mkResult (ep_name ep) (ep_url ep) "error" None (Some (Dashboard.message_of error))
                      responseTime endTime None false in
      let old := match map_get endpointKey (consecutiveFailures s) with
                 | Some v => if Z.eqb v 0 then 0 else v
                 | None => 0
                 end in
      let failures := old + 1 in
      let s := mkApiAgent (api_base s) (alertWebhook s) (alertThreshold s)
                 (map_set endpointKey result (monitoringResults s))
                 (map_set endpointKey failures (consecutiveFailures s))
                 (failureCalls s) (alertPosts s) in
      let s := api_log (LError (cat (ep_name ep) (cat ": " (cat
                 (match Dashboard.message_of error with Some msg => msg | None => "undefined" end)
                 (cat " (" (cat (pretty responseTime) "ms)"))))) JUndefined) s in
      if alertThreshold s <=? failures then handleEndpointFailure ep failures s else s
  end.

(** Successive monitoring of one endpoint, each with its settlement and
    clock readings. *)
Definition monitorMany (ep : Endpoint) (reqs : list (outcome Z * Z * Z)) (s : ApiAgent)
    : ApiAgent :=
  fold_left (fun s '(r, t0, t1) => monitorEndpoint r t0 t1 ep s) reqs s.

End ApiMonitor.

(** * Theorems *)

Module RetryFacts.
Import BaseAgent Describe.

Example retry_third_attempt_succeeds :
  retry (fun i => if i <? 2 then Throw (JStr "e") else Ok (JNum 5)) 3 100
  = (Ok (JNum 5), [ECall 0; ESleep 100; ECall 1; ESleep 200; ECall 2]).
Proof. reflexivity. Qed.

Example retry_all_fail :
  retry (fun i => Throw (JNum i)) 3 100
  = (Throw (JNum 2), [ECall 0; ESleep 100; ECall 1; ESleep 200; ECall 2]).
Proof. reflexivity. Qed.

Lemma retry_loop_attempts (operation : Z -> outcome jsval) (maxRetries delay : Z) :
  forall fuel i, 0 <= i < maxRetries -> maxRetries - i <= Z.of_nat fuel ->
  exists k : nat,
    i + Z.of_nat k < maxRetries /\
    (forall j : nat, (j < k)%nat -> exists e, operation (i + Z.of_nat j) = Throw e) /\
    snd (retry_loop operation maxRetries delay i fuel) = attempts_from delay i k /\
    ((exists v, operation (i + Z.of_nat k) = Ok v /\
                fst (retry_loop operation maxRetries delay i fuel) = Ok v) \/
     (i + Z.of_nat k = maxRetries - 1 /\
      exists e, operation (i + Z.of_nat k) = Throw e /\
                fst (retry_loop operation maxRetries delay i fuel) = Throw e)).
Proof.
  induction fuel as [|fuel IH]; intros i Hi Hf; [lia|].
  simpl. replace (i <? maxRetries) with true by (symmetry; apply Z.ltb_lt; lia).
  destruct (operation i) as [v|e] eqn:Hop.
  - exists O. rewrite Z.add_0_r. repeat split; [lia| intros; lia |].
    left. eauto.
  - destruct (Z.eqb_spec i (maxRetries - 1)) as [Hlast|Hlast].
    + exists O. rewrite Z.add_0_r. repeat split; [lia| intros; lia |].
      right. eauto.
    + destruct (IH (i + 1)) as (k & Hk & Hfail & Htr & Hres); [lia|lia|].
      destruct (retry_loop operation maxRetries delay (i + 1) fuel) as [r tr].
      simpl in *. exists (S k).
      replace (i + Z.of_nat (S k)) with (i + 1 + Z.of_nat k) by lia.
      repeat split; [lia| |simpl; rewrite Htr; reflexivity|exact Hres].
      intros [|j] Hj.
      * rewrite Z.add_0_r. eauto.
      * replace (i + Z.of_nat (S j)) with (i + 1 + Z.of_nat j) by lia.
        apply Hfail. lia.
Qed.

(** C7: with at least one attempt allowed, [retry] calls the operation for
    attempts 0, 1, ..., k (k < maxRetries), where every attempt before k
    failed; it sleeps [delay * 2^j] after each failed attempt j but the last
    one made; it returns the value of attempt k when k succeeded, and
    otherwise k is the final attempt [maxRetries - 1] and its error is
    re-thrown. *)
Theorem retry_bounded_backoff (operation : Z -> outcome jsval) (maxRetries delay : Z)
    (Hmax : 1 <= maxRetries) :
  exists k : nat,
    Z.of_nat k < maxRetries /\
    (forall j : nat, (j < k)%nat -> exists e, operation (Z.of_nat j) = Throw e) /\
    snd (retry operation maxRetries delay) = attempts_from delay 0 k /\
    ((exists v, operation (Z.of_nat k) = Ok v /\
                fst (retry operation maxRetries delay) = Ok v) \/
     (Z.of_nat k = maxRetries - 1 /\
      exists e, operation (Z.of_nat k) = Throw e /\
                fst (retry operation maxRetries delay) = Throw e)).
Proof.
  unfold retry.
  destruct (retry_loop_attempts operation maxRetries delay (Z.to_nat maxRetries) 0)
    as (k & H1 & H2 & H3 & H4); [lia|lia|].
  exists k. rewrite !Z.add_0_l in *. auto.
Qed.

Lemma retry_bounded_backoff_witness :
  retry (fun i => if i <? 2 then Throw (JStr "e") else Ok (JNum 5)) 3 100
    = (Ok (JNum 5), [ECall 0; ESleep 100; ECall 1; ESleep 200; ECall 2]) /\
  exists k : nat,
    Z.of_nat k < 3 /\
    (forall j : nat, (j < k)%nat -> exists e,
        (fun i => if i <? 2 then Throw (JStr "e") else Ok (JNum 5)) (Z.of_nat j) = Throw e) /\
    snd (retry (fun i => if i <? 2 then Throw (JStr "e") else Ok (JNum 5)) 3 100)
      = attempts_from 100 0 k /\
    ((exists v, (fun i => if i <? 2 then Throw (JStr "e") else Ok (JNum 5)) (Z.of_nat k) = Ok v /\
                fst (retry (fun i => if i <? 2 then Throw (JStr "e") else Ok (JNum 5)) 3 100) = Ok v) \/
     (Z.of_nat k = 3 - 1 /\
      exists e, (fun i => if i <? 2 then Throw (JStr "e") else Ok (JNum 5)) (Z.of_nat k) = Throw e /\
                fst (retry (fun i => if i <? 2 then Throw (JStr "e") else Ok (JNum 5)) 3 100) = Throw e)).
Proof.
  split; [reflexivity|].
  apply (retry_bounded_backoff (fun i => if i <? 2 then Throw (JStr "e") else Ok (JNum 5)) 3 100).
  lia.
Defined.

(** C10: with [maxRetries <= 0] the loop body never runs: [retry] calls the
    operation zero times, throws nothing and resolves to [undefined], the
    same settlement as one successful attempt of an operation that returned
    [undefined]. *)
Theorem retry_nonpositive_undefined (operation : Z -> outcome jsval) (maxRetries delay : Z)
    (Hmax : maxRetries <= 0) :
  retry operation maxRetries delay = (Ok JUndefined, []) /\
  fst (retry operation maxRetries delay) = fst (retry (fun _ => Ok JUndefined) 1 delay).
Proof.
  unfold retry. replace (Z.to_nat maxRetries) with O by lia. split; reflexivity.
Qed.

Lemma retry_nonpositive_undefined_witness :
  retry (fun _ => Throw (JStr "boom")) 0 1000 = (Ok JUndefined, []) /\
  fst (retry (fun _ => Throw (JStr "boom")) 0 1000)
    = fst (retry (fun _ => Ok JUndefined) 1 1000).
Proof.
  apply (retry_nonpositive_undefined (fun _ => Throw (JStr "boom")) 0 1000). lia.
Defined.

End RetryFacts.

Module AgentFacts.
Import BaseAgent Describe.

(** A hook that returns normally, as the default one and the overrides in
    the repository do. *)
Definition hook_returns (handleError : Agent -> jsval -> list log_entry * outcome unit) : Prop :=
  forall a e, snd (handleError a e) = Ok tt.

Lemma defaultHandleError_returns : hook_returns defaultHandleError.
Proof. intros a e. reflexivity. Qed.

(** The instance a run body sees inside [execute()]. *)
Definition executing (now : Z) (a : Agent) : Agent :=
  set_runCount (runCount a + 1)
    (set_lastRun (Some now) (emit (LDebug (cat "Executing agent " (id a))) a)).

Lemma execute_throw run handleError now a error :
  run (executing now a) = Throw error ->
  execute run handleError now a =
    (let a1 := set_errorCount (errorCount a + 1) (executing now a) in
     let a2 := emit (LError (cat "Agent " (cat (id a) " execution failed:")) error) a1 in
     (logs (fst (handleError a2 error)) a2, snd (handleError a2 error))).
Proof.
  intros Hrun. unfold execute. cbv zeta.
  change (set_runCount (runCount (set_lastRun (Some now) (emit (LDebug (cat "Executing agent " (id a))) a)) + 1)
            (set_lastRun (Some now) (emit (LDebug (cat "Executing agent " (id a))) a)))
    with (executing now a).
  rewrite Hrun.
  change (errorCount (executing now a)) with (errorCount a).
  change (id (set_errorCount (errorCount a + 1) (executing now a))) with (id a).
  destruct (handleError _ error). reflexivity.
Qed.

Lemma fire_throwing run handleError now a :
  hook_returns handleError ->
  (forall a', exists e, run a' = Throw e) ->
  forall t, task a = Some t -> cron_started t = true ->
  let a' := fire run handleError now a in
  lastRun a' = Some now /\ runCount a' = runCount a + 1 /\
  errorCount a' = errorCount a + 1 /\ isRunning a' = isRunning a /\
  task a' = task a /\ liveTasks a' = liveTasks a.
Proof.
  intros Hhook Hrun t Ht Hs.
  destruct (Hrun (executing now a)) as [e He].
  pose proof (execute_throw run handleError now a e He) as Hx.
  unfold fire. rewrite Ht, Hs, Hx. simpl. rewrite Ht. repeat split; reflexivity.
Qed.

(** C1: when [run()] throws, [execute()] records [lastRun], increments
    [runCount] and [errorCount], hands the error to [handleError] (its log
    entries are appended) and resolves normally, leaving [isRunning] and the
    trigger alone; so an instance holding a started trigger whose body
    throws every time is executed on every one of any sequence of firings. *)
Theorem execute_swallows_run_error
    (run : Agent -> outcome jsval)
    (handleError : Agent -> jsval -> list log_entry * outcome unit)
    (Hhook : hook_returns handleError) :
  (forall now a error, run (executing now a) = Throw error ->
     let '(a', r) := execute run handleError now a in
     r = Ok tt /\ lastRun a' = Some now /\ runCount a' = runCount a + 1 /\
     errorCount a' = errorCount a + 1 /\ isRunning a' = isRunning a /\
     task a' = task a /\ liveTasks a' = liveTasks a /\
     exists a2, log a' = log a2 ++ fst (handleError a2 error)) /\
  ((forall a', exists e, run a' = Throw e) ->
   forall ts a t, task a = Some t -> cron_started t = true ->
     let a' := fire_all run handleError ts a in
     runCount a' = runCount a + Z.of_nat (length ts) /\
     errorCount a' = errorCount a + Z.of_nat (length ts) /\
     isRunning a' = isRunning a /\ task a' = task a).
Proof.
  split.
  - intros now a error Hrun. rewrite (execute_throw _ _ _ _ _ Hrun).
    cbn [fst snd]. rewrite Hhook. repeat split; try reflexivity.
    exists (emit (LError (cat "Agent " (cat (id a) " execution failed:")) error)
              (set_errorCount (errorCount a + 1) (executing now a))).
    reflexivity.
  - intros Hrun ts. unfold fire_all. induction ts as [|now ts IH]; intros a t Ht Hs.
    + simpl. repeat split; lia.
    + simpl.
      destruct (fire_throwing run handleError now a Hhook Hrun t Ht Hs)
        as (_ & Hrc & Hec & Hir & Htk & _).
      rewrite <- Htk in Ht.
      destruct (IH _ t Ht Hs) as (H1 & H2 & H3 & H4).
      rewrite H1, H2, H3, H4, Hrc, Hec, Hir, Htk. repeat split; lia.
Qed.

(** A field check that accepts every string pattern (as node-cron does for
    the five-field patterns used in the examples). *)
Definition accept_all_fields (pattern : string) : option jsval := None.

Definition scheduled_demo : Agent :=
  fst (start defaultRun defaultHandleError accept_all_fields 0
         (construct (mkConfig "monitor-agent" (JStr "monitor") (JStr "*/5 * * * *")))).

Lemma execute_swallows_run_error_witness :
  hook_returns defaultHandleError /\
  runCount (fire_all defaultRun defaultHandleError [60; 120; 180] scheduled_demo) = 3 /\
  (forall now a error, defaultRun (executing now a) = Throw error ->
     let '(a', r) := execute defaultRun defaultHandleError now a in
     r = Ok tt /\ lastRun a' = Some now /\ runCount a' = runCount a + 1 /\
     errorCount a' = errorCount a + 1 /\ isRunning a' = isRunning a /\
     task a' = task a /\ liveTasks a' = liveTasks a /\
     exists a2, log a' = log a2 ++ fst (defaultHandleError a2 error)) /\
  ((forall a', exists e, defaultRun a' = Throw e) ->
   forall ts a t, task a = Some t -> cron_started t = true ->
     let a' := fire_all defaultRun defaultHandleError ts a in
     runCount a' = runCount a + Z.of_nat (length ts) /\
     errorCount a' = errorCount a + Z.of_nat (length ts) /\
     isRunning a' = isRunning a /\ task a' = task a).
Proof.
  split; [exact defaultHandleError_returns|].
  split; [vm_compute; reflexivity|].
  apply (execute_swallows_run_error defaultRun defaultHandleError).
  exact defaultHandleError_returns.
Defined.

(** C3 (corrected): on a freshly constructed instance, [start()] without
    a (truthy) schedule executes once right away: it resolves with
    [runCount = 1], [isRunning] set and no trigger. With a schedule that
    node-cron accepts it creates and starts one cron task and does not
    execute ([runCount = 0]). With a schedule node-cron refuses (a value
    that is not a string, or a string whose fields fail node-cron's check)
    [cron.schedule] throws: [start()] rejects with that error and leaves
    the instance not running, without a task and with [runCount = 0]. *)
Theorem start_fresh_instance
    (run : Agent -> outcome jsval)
    (handleError : Agent -> jsval -> list log_entry * outcome unit)
    (checkFields : string -> option jsval)
    (Hhook : hook_returns handleError) (now : Z) (c : Config) :
  (truthy (cfg_schedule c) = false ->
    let '(a', r) := start run handleError checkFields now (construct c) in
    r = Ok tt /\ runCount a' = 1 /\ lastRun a' = Some now /\
    isRunning a' = true /\ task a' = None /\ liveTasks a' = 0%nat) /\
  (truthy (cfg_schedule c) = true -> cron_validate checkFields (cfg_schedule c) = None ->
    let '(a', r) := start run handleError checkFields now (construct c) in
    r = Ok tt /\ runCount a' = 0 /\ lastRun a' = None /\ isRunning a' = true /\
    task a' = Some (mkCronTask (cfg_schedule c) true) /\ liveTasks a' = 1%nat) /\
  (forall error, truthy (cfg_schedule c) = true ->
    cron_validate checkFields (cfg_schedule c) = Some error ->
    let '(a', r) := start run handleError checkFields now (construct c) in
    r = Throw error /\ runCount a' = 0 /\ lastRun a' = None /\ isRunning a' = false /\
    task a' = None /\ liveTasks a' = 0%nat).
Proof.
  split; [|split].
  - intros Hs. unfold start. cbn. rewrite Hs.
    unfold execute. cbn.
    destruct (run _) as [v|e].
    + cbn. repeat split; reflexivity.
    + match goal with
      | |- context [handleError ?x e] =>
          pose proof (Hhook x e) as Hx; destruct (handleError x e) as [es r]
      end.
      cbn in Hx. subst r.
      cbn. repeat split; reflexivity.
  - intros Hs Hv. unfold start. cbn. rewrite Hs, Hv. cbn. repeat split; reflexivity.
  - intros error Hs Hv. unfold start. cbn. rewrite Hs, Hv. cbn. repeat split; reflexivity.
Qed.

Definition run_once_config : Config := mkConfig "once" (JStr "test") JUndefined.
Definition scheduled_config : Config := mkConfig "monitor-agent" (JStr "monitor") (JStr "*/5 * * * *").
Definition numeric_schedule_config : Config := mkConfig "pinger" (JStr "monitor") (JNum 5).

Lemma start_fresh_instance_witness :
  (let '(a', r) := start defaultRun defaultHandleError accept_all_fields 7 (construct run_once_config) in
   r = Ok tt /\ runCount a' = 1 /\ lastRun a' = Some 7 /\
   isRunning a' = true /\ task a' = None /\ liveTasks a' = 0%nat) /\
  (let '(a', r) := start defaultRun defaultHandleError accept_all_fields 7 (construct scheduled_config) in
   r = Ok tt /\ runCount a' = 0 /\ lastRun a' = None /\ isRunning a' = true /\
   task a' = Some (mkCronTask (cfg_schedule scheduled_config) true) /\ liveTasks a' = 1%nat) /\
  (let '(a', r) := start defaultRun defaultHandleError accept_all_fields 7
                     (construct numeric_schedule_config) in
   r = Throw (JError "TypeError" "pattern must be a string!") /\ runCount a' = 0 /\
   lastRun a' = None /\ isRunning a' = false /\ task a' = None /\ liveTasks a' = 0%nat).
Proof.
  destruct (start_fresh_instance defaultRun defaultHandleError accept_all_fields
              defaultHandleError_returns 7 run_once_config) as [H1 _].
  destruct (start_fresh_instance defaultRun defaultHandleError accept_all_fields
              defaultHandleError_returns 7 scheduled_config) as [_ [H2 _]].
  destruct (start_fresh_instance defaultRun defaultHandleError accept_all_fields
              defaultHandleError_returns 7 numeric_schedule_config) as [_ [_ H3]].
  split; [apply H1; reflexivity|]. split; [apply H2; reflexivity|].
  apply H3; reflexivity.
Defined.

(** C3, as stated, fails: a schedule that is truthy but not a string (a
    number, as a JSON request body can carry) is refused by
    [cron.schedule] whatever node-cron's check of string patterns, so
    [start()] rejects with node-cron's [TypeError] and registers no
    trigger. *)
Lemma start_non_string_schedule :
  truthy (cfg_schedule numeric_schedule_config) = true /\
  forall run handleError checkFields now,
    let '(a', r) := start run handleError checkFields now (construct numeric_schedule_config) in
    r = Throw (JError "TypeError" "pattern must be a string!") /\
    isRunning a' = false /\ task a' = None /\ liveTasks a' = 0%nat.
Proof.
  split; [reflexivity|].
  intros run handleError checkFields now. unfold start. cbn.
  repeat split; reflexivity.
Qed.

Lemma execute_keeps_lifecycle run handleError now a :
  let a' := fst (execute run handleError now a) in
  isRunning a' = isRunning a /\ task a' = task a /\ liveTasks a' = liveTasks a.
Proof.
  unfold execute. cbn.
  destruct (run _); [|destruct (handleError _ _)]; cbn; repeat split; reflexivity.
Qed.

Lemma step_task_inv run handleError checkFields a act :
  task_inv a -> task_inv (step run handleError checkFields a act).
Proof.
  unfold task_inv. intros [Hl Hr]. destruct act as [now| |now|now]; cbn.
  - unfold start. destruct (isRunning a) eqn:Hir; cbn; [split; auto|].
    destruct (task a) eqn:Ht.
    { exfalso. assert (false = true) by (apply Hr; discriminate). congruence. }
    destruct (truthy (schedule a)); cbn.
    + destruct (cron_validate checkFields (schedule a)); cbn;
        [rewrite Ht; split; [exact Hl|intros H; contradiction H; reflexivity]|].
      rewrite Hl. split; [reflexivity|intros; reflexivity].
    + match goal with
      | |- context [execute run handleError now ?x] =>
          pose proof (execute_keeps_lifecycle run handleError now x) as (E1 & E2 & E3);
          destruct (execute run handleError now x) as [a' [v|e]]
      end; cbn in E1, E2, E3 |- *; rewrite E2, E3, Hl, Ht; split; congruence.
  - unfold stop. destruct (isRunning a) eqn:Hir; cbn;
      [|split; [exact Hl|intros H; rewrite Hir; apply Hr, H]].
    destruct (task a) eqn:Ht; cbn; rewrite ?Hl, ?Ht;
      (split; [reflexivity|intros H; exfalso; apply H; reflexivity]).
  - unfold fire. destruct (task a) as [t|] eqn:Ht; [destruct (cron_started t)|];
      [|rewrite Ht; split; auto|rewrite Ht; split; auto].
    pose proof (execute_keeps_lifecycle run handleError now a) as (E1 & E2 & E3).
    cbn in E1, E2, E3. rewrite E1, E2, E3, Ht. auto.
  - pose proof (execute_keeps_lifecycle run handleError now a) as (E1 & E2 & E3).
    cbn in E1, E2, E3. rewrite E1, E2, E3. auto.
Qed.

Lemma steps_task_inv run handleError checkFields acts :
  forall a, task_inv a -> task_inv (steps run handleError checkFields acts a).
Proof.
  unfold steps. induction acts as [|act acts IH]; intros a Ha; cbn; [exact Ha|].
  apply IH, step_task_inv, Ha.
Qed.

(** C4: [start()] on a running instance and [stop()] on one that is not
    running only log a warning and leave the instance as it was (no second
    cron task); and along any sequence of start, stop, execute and trigger
    firings from construction, the instance has at most one started cron
    task, held in [task], and only while [isRunning]. *)
Theorem start_stop_idempotent
    (run : Agent -> outcome jsval)
    (handleError : Agent -> jsval -> list log_entry * outcome unit)
    (checkFields : string -> option jsval) :
  (forall now a, isRunning a = true ->
     start run handleError checkFields now a
     = (emit (LWarn (cat "Agent " (cat (id a) " is already running"))) a, Ok tt)) /\
  (forall a, isRunning a = false ->
     stop a = (emit (LWarn (cat "Agent " (cat (id a) " is not running"))) a, Ok tt)) /\
  (forall c acts,
     let a := steps run handleError checkFields acts (construct c) in
     task_inv a /\ (liveTasks a <= 1)%nat).
Proof.
  split; [|split].
  - intros now a H. unfold start. rewrite H. reflexivity.
  - intros a H. unfold stop. rewrite H. reflexivity.
  - intros c acts. cbv zeta.
    assert (Hi : task_inv (steps run handleError checkFields acts (construct c)))
      by (apply steps_task_inv; split; [reflexivity|intros H; contradiction H; reflexivity]).
    split; [exact Hi|]. destruct Hi as [Hl _]. rewrite Hl.
    destruct (task _); lia.
Qed.

Lemma start_stop_idempotent_witness :
  start defaultRun defaultHandleError accept_all_fields 5 scheduled_demo
    = (emit (LWarn (cat "Agent " (cat (id scheduled_demo) " is already running"))) scheduled_demo, Ok tt) /\
  stop (construct scheduled_config)
    = (emit (LWarn (cat "Agent " (cat (id (construct scheduled_config)) " is not running")))
         (construct scheduled_config), Ok tt) /\
  (liveTasks (steps defaultRun defaultHandleError accept_all_fields
                [AStart 0; AStart 1; AFire 2; AStop; AStop; AStart 3]
                (construct scheduled_config)) <= 1)%nat.
Proof.
  destruct (start_stop_idempotent defaultRun defaultHandleError accept_all_fields) as (H1 & H2 & H3).
  split; [apply H1; reflexivity|]. split; [apply H2; reflexivity|].
  apply (H3 scheduled_config [AStart 0; AStart 1; AFire 2; AStop; AStop; AStart 3]).
Defined.

End AgentFacts.

Module ManagerFacts.
Import BaseAgent AgentManager Dashboard AgentFacts.

Lemma map_get_set_eq {V} (k : string) (v : V) (m : JSMap V) :
  map_get k (map_set k v m) = Some v.
Proof.
  induction m as [|[k' v'] m IH]; cbn; [rewrite String.eqb_refl; reflexivity|].
  destruct (String.eqb_spec k k') as [->|Hne]; cbn.
  - rewrite String.eqb_refl. reflexivity.
  - apply String.eqb_neq in Hne. rewrite Hne. exact IH.
Qed.

Lemma map_get_set_ne {V} (k k' : string) (v : V) (m : JSMap V) :
  k <> k' -> map_get k' (map_set k v m) = map_get k' m.
Proof.
  intros Hne. induction m as [|[k0 v0] m IH]; cbn.
  - destruct (String.eqb_spec k' k); [congruence|reflexivity].
  - destruct (String.eqb_spec k k0) as [->|Hne0]; cbn.
    + destruct (String.eqb_spec k' k0); [congruence|reflexivity].
    + destruct (String.eqb_spec k' k0); [reflexivity|exact IH].
Qed.

Lemma map_set_In {V} (k k' : string) (v v' : V) (m : JSMap V) :
  In (k', v') (map_set k v m) -> (k', v') = (k, v) \/ In (k', v') m.
Proof.
  induction m as [|[k0 v0] m IH]; cbn; [intuition|].
  destruct (String.eqb_spec k k0) as [->|_]; cbn; intros [H|H]; auto.
  destruct (IH H); auto.
Qed.

(** The log and the agents after the stop loop of [shutdown]. *)
Definition stop_entry (stopAgent : Agent -> Agent * outcome unit)
    (p : string * Agent) : log_entry :=
  let '(agentId, agent) := p in
  match snd (stopAgent agent) with
  | Ok _ => LInfo (cat "Stopped agent: " agentId)
  | Throw error => LError (cat "Error stopping agent " (cat agentId ":")) error
  end.

Lemma stop_all_spec stopAgent (l : JSMap Agent) :
  forall lg, stop_all stopAgent l lg
    = (lg ++ map (stop_entry stopAgent) l,
       map (fun '(k, a) => (k, fst (stopAgent a))) l).
Proof.
  induction l as [|[k a] l IH]; intros lg; cbn; [rewrite app_nil_r; reflexivity|].
  destruct (stopAgent a) as [a' r] eqn:Hs. rewrite IH. cbn.
  destruct r; rewrite <- app_assoc; reflexivity.
Qed.

(** C5: [shutdown()] calls [stop()] on every tracked instance in map order,
    logs each success and each thrown error and goes on, then empties the
    map (so [getAllAgentStatuses()] is empty) and clears [isRunning]; a
    second [shutdown()] only logs its start line and ends the same way. *)
Theorem shutdown_stops_all (stopAgent : Agent -> Agent * outcome unit) (m : Manager) :
  let '(m', stopped) := shutdown stopAgent m in
  stopped = map (fun '(k, a) => (k, fst (stopAgent a))) (agents m) /\
  mgr_log m' = mgr_log m ++ LInfo "Shutting down all agents..."
                          :: map (stop_entry stopAgent) (agents m) /\
  agents m' = [] /\ mgr_isRunning m' = false /\
  (forall (S : Type) (statusOf : Agent -> S), fst (getAllAgentStatuses statusOf m') = []) /\
  shutdown stopAgent m'
    = (mkManager [] false (mgr_log m' ++ [LInfo "Shutting down all agents..."]), []).
Proof.
  unfold shutdown. rewrite stop_all_spec. cbn.
  repeat split; try reflexivity.
  rewrite <- app_assoc. reflexivity.
Qed.

(** C9: [getAgentStatus(id)] is [null] for an id not in the map and the
    instance's own status otherwise; [getAllAgentStatuses()] has one entry
    per map entry, in map order, under the map key, with that instance's
    status; both leave the manager as it was. The map keys are the
    instances' ids: [loadAgents()] stores [new BaseAgent(config)] under
    [config.id]. *)
Theorem status_queries_read_only {S : Type} (statusOf : Agent -> S) (m : Manager) :
  (forall agentId, map_get agentId (agents m) = None ->
     getAgentStatus statusOf agentId m = (None, m)) /\
  (forall agentId a, map_get agentId (agents m) = Some a ->
     getAgentStatus statusOf agentId m = (Some (statusOf a), m)) /\
  getAllAgentStatuses statusOf m
    = (map (fun '(k, a) => (k, statusOf a)) (agents m), m) /\
  (forall cfgs k a, In (k, a) (agents (loadAgents createAgentDefault cfgs newManager)) ->
     id a = k).
Proof.
  split; [|split; [|split]].
  - intros agentId H. unfold getAgentStatus. rewrite H. reflexivity.
  - intros agentId a H. unfold getAgentStatus. rewrite H. reflexivity.
  - unfold getAllAgentStatuses. f_equal.
    assert (Hgen : forall l acc, statuses_of statusOf l acc
                     = acc ++ map (fun '(k, a) => (k, statusOf a)) l).
    { induction l as [|[k a] l IH]; intros acc; cbn; [rewrite app_nil_r; reflexivity|].
      rewrite IH, <- app_assoc. reflexivity. }
    rewrite Hgen. reflexivity.
  - intros cfgs. unfold loadAgents.
    assert (Hgen : forall cs m0, (forall k a, In (k, a) (agents m0) -> id a = k) ->
                   forall k a, In (k, a) (agents (fold_left (loadAgent createAgentDefault) cs m0)) ->
                   id a = k).
    { induction cs as [|c cs IH]; intros m0 H0; cbn; [exact H0|].
      apply IH. intros k a Hin. unfold loadAgent, createAgentDefault in Hin. cbn in Hin.
      destruct (map_set_In _ _ _ _ _ Hin) as [Heq|Hin'].
      - inversion Heq. reflexivity.
      - apply H0, Hin'. }
    apply Hgen. intros k a []. 
Qed.

Definition demo_manager : Manager :=
  loadAgents createAgentDefault getAgentConfigs newManager.

Lemma status_queries_read_only_witness :
  map_get "nope" (agents demo_manager) = None /\
  getAgentStatus getStatus "nope" demo_manager = (None, demo_manager) /\
  getAgentStatus getStatus "monitor-agent" demo_manager
    = (Some (getStatus (construct (mkConfig "monitor-agent" (JStr "monitor") (JStr "*/5 * * * *")))),
       demo_manager) /\
  id (construct (mkConfig "monitor-agent" (JStr "monitor") (JStr "*/5 * * * *"))) = "monitor-agent".
Proof.
  destruct (status_queries_read_only getStatus demo_manager) as (H1 & H2 & _ & H4).
  split; [reflexivity|]. split; [apply H1; reflexivity|]. split.
  - apply H2. reflexivity.
  - apply (H4 getAgentConfigs). left. reflexivity.
Defined.



End ManagerFacts.

Module LoadFacts.
Import BaseAgent AgentManager ManagerFacts.

(** C6, as stated, fails: [loadAgents()] never calls [start()]. The agent it
    stores for the default configuration has never logged (every [start()]
    call logs first) and is not running. *)
Lemma loadAgents_does_not_start :
  exists a, map_get "monitor-agent"
              (agents (loadAgents createAgentDefault getAgentConfigs newManager)) = Some a /\
            isRunning a = false /\ log a = [] /\ task a = None.
Proof.
  eexists. split; [reflexivity|]. repeat split; reflexivity.
Qed.

Lemma loadAgent_agents_other createAgent m c k :
  (cfg_id c <> k \/ exists e, createAgent c = Throw e) ->
  map_get k (agents (loadAgent createAgent m c)) = map_get k (agents m).
Proof.
  intros H. unfold loadAgent. destruct (createAgent c) as [a|e] eqn:Hc; cbn; [|reflexivity].
  destruct H as [H|[e He]]; [|congruence].
  apply map_get_set_ne. exact H.
Qed.

Lemma fold_loadAgent_keeps createAgent k post :
  (forall c', In c' post -> cfg_id c' = k -> exists e, createAgent c' = Throw e) ->
  forall m, map_get k (agents (fold_left (loadAgent createAgent) post m))
            = map_get k (agents m).
Proof.
  induction post as [|c post IH]; intros Hpost m; cbn; [reflexivity|].
  rewrite IH by (intros c' Hin; apply Hpost; right; exact Hin).
  apply loadAgent_agents_other.
  destruct (String.eqb_spec (cfg_id c) k) as [Heq|Hne]; [right|left; exact Hne].
  apply Hpost; [left; reflexivity|exact Heq].
Qed.

Lemma fold_loadAgent_origin createAgent cfgs :
  forall m k a, map_get k (agents (fold_left (loadAgent createAgent) cfgs m)) = Some a ->
  map_get k (agents m) = Some a \/
  exists c, In c cfgs /\ cfg_id c = k /\ createAgent c = Ok a.
Proof.
  induction cfgs as [|c cfgs IH]; intros m k a H; cbn in H; [left; exact H|].
  destruct (IH _ _ _ H) as [H1|(c' & Hin & Hk & Hc)];
    [|right; exists c'; split; [right; exact Hin|split; assumption]].
  unfold loadAgent in H1. destruct (createAgent c) as [a0|e] eqn:Hc; cbn in H1; [|left; exact H1].
  destruct (String.eqb_spec (cfg_id c) k) as [<-|Hne].
  - rewrite map_get_set_eq in H1. inversion H1; subst a0.
    right. exists c. split; [left; reflexivity|split; [reflexivity|exact Hc]].
  - rewrite map_get_set_ne in H1 by exact Hne. left. exact H1.
Qed.

Lemma fold_loadAgent_log createAgent cfgs :
  forall m, exists l, mgr_log (fold_left (loadAgent createAgent) cfgs m) = mgr_log m ++ l.
Proof.
  induction cfgs as [|c cfgs IH]; intros m; cbn; [exists []; rewrite app_nil_r; reflexivity|].
  destruct (IH (loadAgent createAgent m c)) as [l Hl]. rewrite Hl.
  unfold loadAgent. destruct (createAgent c); cbn; rewrite <- app_assoc; eexists; reflexivity.
Qed.

Lemma fold_loadAgent_running createAgent cfgs :
  forall m, mgr_isRunning (fold_left (loadAgent createAgent) cfgs m) = mgr_isRunning m.
Proof.
  induction cfgs as [|c cfgs IH]; intros m; cbn; [reflexivity|].
  rewrite IH. unfold loadAgent. destruct (createAgent c); reflexivity.
Qed.

(** C6 as the code has it: [loadAgents()] goes over [getAgentConfigs()]
    (here any list [cfgs]), stores what [createAgent(config)] returns under
    [config.id] without starting it, and a config whose creation throws is
    logged and skipped: every config that was created is found under its id
    unless a later config with the same id was created too; the map holds
    nothing else; each failure is in the manager log; [isRunning] is
    untouched. *)
Theorem loadAgents_isolates_failures (createAgent : Config -> outcome Agent)
    (cfgs : list Config) (m : Manager) :
  let m' := loadAgents createAgent cfgs m in
  (forall pre c post a, cfgs = pre ++ c :: post -> createAgent c = Ok a ->
     (forall c', In c' post -> cfg_id c' = cfg_id c -> exists e, createAgent c' = Throw e) ->
     map_get (cfg_id c) (agents m') = Some a) /\
  (forall k a, map_get k (agents m') = Some a ->
     map_get k (agents m) = Some a \/
     exists c, In c cfgs /\ cfg_id c = k /\ createAgent c = Ok a) /\
  (forall c e, In c cfgs -> createAgent c = Throw e ->
     In (LError (cat "Failed to load agent " (cat (cfg_id c) ":")) e) (mgr_log m')) /\
  mgr_isRunning m' = mgr_isRunning m.
Proof.
  cbv zeta. unfold loadAgents. split; [|split; [|split]].
  - intros pre c post a -> Hc Hpost.
    rewrite fold_left_app. cbn.
    rewrite (fold_loadAgent_keeps createAgent (cfg_id c) post Hpost).
    unfold loadAgent. rewrite Hc. cbn. apply map_get_set_eq.
  - intros k a H. apply fold_loadAgent_origin in H. exact H.
  - intros c e Hin Hc. apply in_split in Hin. destruct Hin as (pre & post & ->).
    rewrite fold_left_app. cbn.
    destruct (fold_loadAgent_log createAgent post
                (loadAgent createAgent
                   (fold_left (loadAgent createAgent) pre (mlog (LInfo "Loading agents...") m)) c))
      as [l Hl].
    rewrite Hl. unfold loadAgent. rewrite Hc. cbn.
    apply in_or_app. left. apply in_or_app. right. left. reflexivity.
  - rewrite fold_loadAgent_running. reflexivity.
Qed.

Definition failing_create (c : Config) : outcome Agent :=
  if String.eqb (cfg_id c) "bad" then Throw (JStr "boom") else Ok (construct c).

Definition two_configs : list Config :=
  [mkConfig "bad" (JStr "x") JUndefined; mkConfig "good" (JStr "y") (JStr "* * * * *")].

Lemma loadAgents_isolates_failures_witness :
  map_get "good" (agents (loadAgents failing_create two_configs newManager))
    = Some (construct (mkConfig "good" (JStr "y") (JStr "* * * * *"))) /\
  In (LError (cat "Failed to load agent " (cat "bad" ":")) (JStr "boom"))
     (mgr_log (loadAgents failing_create two_configs newManager)).
Proof.
  destruct (loadAgents_isolates_failures failing_create two_configs newManager)
    as (H1 & _ & H3 & _).
  split.
  - apply (H1 [mkConfig "bad" (JStr "x") JUndefined]
              (mkConfig "good" (JStr "y") (JStr "* * * * *")) []); [reflexivity|reflexivity|].
    intros c' [].
  - apply (H3 (mkConfig "bad" (JStr "x") JUndefined)); [left; reflexivity|reflexivity].
Defined.

End LoadFacts.

Module RegistryFacts.
Import BaseAgent AgentRegistry.

Example merge_example :
  mergeConfig (<["schedule" := JStr "A"]> {["x" := JNum 1]}) {["x" := JNum 2]}
  = <["schedule" := JStr "A"]> {["x" := JNum 2]}.
Proof. reflexivity. Qed.

(** C8 (against the model of the registry from the spec): [createInstance]
    fails with NotFound for a name absent from the catalog; for a catalog
    entry it calls the entry's factory with a configuration whose every
    field is the override's when the override has it and the persisted
    one's otherwise; e.g. persisted [{schedule: "A", x: 1}] with override
    [{x: 2}] gives [{schedule: "A", x: 2}]. *)
Theorem createInstance_merges (catalog : gmap string Descriptor) (now : Z)
    (name : string) (overrideConfig : ConfigObj) :
  (catalog !! name = None ->
     exists msg, createInstance catalog now name overrideConfig
                 = Throw (JError "NotFoundError" msg)) /\
  (forall d, catalog !! name = Some d ->
     exists ic, createInstance catalog now name overrideConfig = Ok (d_factory d ic) /\
       ic_type ic = name /\
       forall k, ic_config ic !! k
                 = match overrideConfig !! k with
                   | Some v => Some v
                   | None => default ∅ (d_persistedConfig d) !! k
                   end) /\
  mergeConfig (<["schedule" := JStr "A"]> {["x" := JNum 1]}) {["x" := JNum 2]}
    = <["schedule" := JStr "A"]> {["x" := JNum 2]}.
Proof.
  split; [|split].
  - intros H. unfold createInstance. rewrite H. eexists. reflexivity.
  - intros d H. unfold createInstance. rewrite H.
    eexists. split; [reflexivity|]. split; [reflexivity|].
    intros k. cbn. unfold mergeConfig. rewrite lookup_union.
    destruct (overrideConfig !! k); destruct (default ∅ (d_persistedConfig d) !! k); reflexivity.
  - reflexivity.
Qed.

Definition demo_factory (ic : InstanceConfig) : Agent :=
  construct (mkConfig (ic_id ic) (JStr (ic_type ic)) (default JUndefined (ic_config ic !! "schedule"))).

Definition demo_catalog : gmap string Descriptor :=
  {["api-monitor" := mkDescriptor "api-monitor" demo_factory
                       (Some (<["schedule" := JStr "A"]> {["x" := JNum 1]}))]}.

Lemma createInstance_merges_witness :
  (exists msg, createInstance demo_catalog 3 "nope" ∅ = Throw (JError "NotFoundError" msg)) /\
  (exists ic, createInstance demo_catalog 3 "api-monitor" {["x" := JNum 2]}
              = Ok (demo_factory ic) /\ ic_config ic !! "x" = Some (JNum 2) /\
              ic_config ic !! "schedule" = Some (JStr "A")).
Proof.
  split.
  - apply (createInstance_merges demo_catalog 3 "nope" ∅). reflexivity.
  - destruct (proj1 (proj2 (createInstance_merges demo_catalog 3 "api-monitor" {["x" := JNum 2]}))
               _ eq_refl) as (ic & Hc & _ & Hk).
    exists ic. split; [exact Hc|]. rewrite !Hk. split; reflexivity.
Defined.

End RegistryFacts.

(** ** Further properties: the manager's start and stop *)
Module ManagerOpsFacts.
Import BaseAgent Describe AgentManager ManagerOps Dashboard AgentFacts ManagerFacts.

Lemma start_resolved_running run handleError checkFields now a :
  snd (start run handleError checkFields now a) = Ok tt ->
  isRunning (fst (start run handleError checkFields now a)) = true.
Proof.
  unfold start. destruct (isRunning a) eqn:Hir; [intros _; exact Hir|].
  destruct (truthy _); [destruct (cron_validate _ _); [discriminate|intros _; reflexivity]|].
  destruct (execute _ _ _ _) as [a' r]. destruct r; cbn; [reflexivity|discriminate].
Qed.

Definition ops_demo_config : Config := mkConfig "watcher" (JStr "monitor") (JStr "*/10 * * * *").

Definition ops_demo_manager : Manager :=
  mkManager [("watcher", construct ops_demo_config)] true [].

Definition ops_quiet_run (a : Agent) : outcome jsval := Ok JUndefined.

(** X: starting a tracked agent through the manager and then stopping it
    leaves the stored instance not running, without a trigger and with no
    cron task of it still started, whatever its schedule, provided the
    start resolved. *)
Theorem startAgent_then_stopAgent run handleError checkFields now agentId m a :
  map_get agentId (agents m) = Some a -> task_inv a ->
  fst (startAgent run handleError checkFields now agentId m) = Ok tt ->
  fst (stopAgent baseStop agentId (snd (startAgent run handleError checkFields now agentId m))) = Ok tt /\
  exists a2,
    map_get agentId (agents (snd (stopAgent baseStop agentId
                                   (snd (startAgent run handleError checkFields now agentId m))))) = Some a2 /\
    isRunning a2 = false /\ task a2 = None /\ liveTasks a2 = 0%nat.
Proof.
  intros Ha Hinv Hok. unfold startAgent in *. rewrite Ha in *.
  pose proof (step_task_inv run handleError checkFields a (AStart now) Hinv) as Hinv1. cbn in Hinv1.
  pose proof (start_resolved_running run handleError checkFields now a) as Hrun.
  destruct (start run handleError checkFields now a) as [a1 r] eqn:Hs.
  destruct r as [u|e]; cbn in Hok; [|discriminate]. destruct u.
  specialize (Hrun eq_refl). cbn in Hrun, Hinv1. destruct Hinv1 as [Hl _].
  unfold stopAgent. cbn. rewrite map_get_set_eq.
  unfold baseStop, stop. rewrite Hrun. cbn.
  destruct (task a1) eqn:Ht; cbn.
  - split; [reflexivity|]. eexists. split; [apply map_get_set_eq|]. cbn. rewrite Hl.
    repeat split; reflexivity.
  - split; [reflexivity|]. eexists. split; [apply map_get_set_eq|]. cbn.
    rewrite Ht, Hl. repeat split; reflexivity.
Qed.

Lemma startAgent_then_stopAgent_witness :
  (map_get "watcher" (agents ops_demo_manager) = Some (construct ops_demo_config) /\
   task_inv (construct ops_demo_config) /\
   fst (startAgent ops_quiet_run defaultHandleError accept_all_fields 7 "watcher" ops_demo_manager) = Ok tt) /\
  fst (stopAgent baseStop "watcher"
         (snd (startAgent ops_quiet_run defaultHandleError accept_all_fields 7 "watcher" ops_demo_manager))) = Ok tt.
Proof.
  assert (Hinv : task_inv (construct ops_demo_config)) by (split; [reflexivity|intros H; contradiction H; reflexivity]).
  split; [split; [reflexivity|split; [exact Hinv|reflexivity]]|].
  exact (proj1 (startAgent_then_stopAgent ops_quiet_run defaultHandleError accept_all_fields 7 "watcher"
                  ops_demo_manager (construct ops_demo_config) eq_refl Hinv eq_refl)).
Defined.

End ManagerOpsFacts.

(** ** Further properties: the dashboard's class-name helper *)
Module CreationFacts.
Import Dashboard.

(** Words made of lower-case ASCII letters and digits. *)
Definition lower_or_digit (c : Ascii.ascii) : bool :=
  let n := Ascii.nat_of_ascii c in
  (Nat.leb 97 n && Nat.leb n 122) || (Nat.leb 48 n && Nat.leb n 57).

Fixpoint plain_word (s : string) : bool :=
  match s with
  | EmptyString => true
  | String c r => lower_or_digit c && plain_word r
  end.

Definition simple_word (w : string) : bool :=
  match w with
  | EmptyString => false
  | String _ _ => plain_word w
  end.

(** The word with its first character upper-cased. *)
Definition capitalize (w : string) : string :=
  match w with
  | EmptyString => EmptyString
  | String c r => String (upper c) r
  end.

Lemma lower_or_digit_class c :
  lower_or_digit c = true -> is_sep c = false /\ is_word c = true.
Proof.
  unfold lower_or_digit, is_sep, is_word.
  generalize (Ascii.nat_of_ascii c) as n. intros n H.
  apply orb_true_iff in H as [H|H]; apply andb_true_iff in H as [H1 H2];
    apply Nat.leb_le in H1; apply Nat.leb_le in H2.
  - split.
    + apply orb_false_iff; split; apply Nat.eqb_neq; lia.
    + apply orb_true_iff; left. apply orb_true_iff; left. apply orb_true_iff; right.
      apply andb_true_iff; split; apply Nat.leb_le; lia.
  - split.
    + apply orb_false_iff; split; apply Nat.eqb_neq; lia.
    + apply orb_true_iff; left. apply orb_true_iff; right.
      apply andb_true_iff; split; apply Nat.leb_le; lia.
Qed.

Lemma append_cons c (w r : string) : (String c w ++ r)%string = String c (w ++ r).
Proof. reflexivity. Qed.

Lemma pascal_plain w rest :
  plain_word w = true -> pascal_from false (w ++ rest) = (w ++ pascal_from false rest)%string.
Proof.
  induction w as [|c w IH]; [reflexivity|].
  intros H. cbn in H. apply andb_true_iff in H as [Hc Hw].
  destruct (lower_or_digit_class c Hc) as [Hs _]. rewrite !append_cons. simpl. rewrite Hs.
  f_equal. apply IH, Hw.
Qed.

(** The words joined with a dash before each. *)
Fixpoint dashed (ws : list string) : string :=
  match ws with
  | [] => EmptyString
  | w :: ws => String (Ascii.ascii_of_nat 45) (w ++ dashed ws)
  end.

Lemma append_empty_r (s : string) : (s ++ "")%string = s.
Proof. induction s as [|c s IH]; [reflexivity|]. rewrite append_cons, IH. reflexivity. Qed.

Lemma concat_dash w ws : String.concat "-" (w :: ws) = (w ++ dashed ws)%string.
Proof.
  revert w. induction ws as [|w' ws IH]; intros w.
  - symmetry. apply append_empty_r.
  - change (String.concat "-" (w :: w' :: ws)) with (w ++ "-" ++ String.concat "-" (w' :: ws))%string.
    rewrite IH. reflexivity.
Qed.

Lemma concat_empty_sep w ws :
  String.concat "" (w :: ws) = (w ++ String.concat "" ws)%string.
Proof.
  destruct ws as [|w' ws]; cbn; [symmetry; apply append_empty_r|reflexivity].
Qed.

Lemma pascal_dashed ws :
  forallb simple_word ws = true ->
  pascal_from false (dashed ws) = String.concat "" (map capitalize ws).
Proof.
  induction ws as [|w ws IH]; cbn; [reflexivity|].
  intros H. apply andb_true_iff in H as [Hw Hws].
  destruct w as [|c w']; [discriminate|]. simpl in Hw |- *.
  apply andb_true_iff in Hw as [Hc Hw'].
  destruct (lower_or_digit_class c Hc) as [_ Hwc]. rewrite Hwc.
  rewrite pascal_plain by exact Hw'. rewrite IH by exact Hws.
  transitivity (String.concat "" (String (upper c) w' :: map capitalize ws));
    [rewrite concat_empty_sep, append_cons; reflexivity|reflexivity].
Qed.

(** X: [toPascalCase] turns dash-separated lower-case words (letters and
    digits, each non-empty) into the concatenation of the words with their
    first letter upper-cased, as the class names of generated agents are
    formed. *)
Theorem toPascalCase_dashed_words ws :
  ws <> [] -> forallb simple_word ws = true ->
  toPascalCase (String.concat "-" ws) = String.concat "" (map capitalize ws).
Proof.
  destruct ws as [|w ws]; [intros H; contradiction H; reflexivity|intros _ H].
  rewrite concat_dash. cbn [map]. rewrite concat_empty_sep.
  cbn in H. apply andb_true_iff in H as [Hw Hws].
  destruct w as [|c w']; [discriminate|]. cbn in Hw.
  apply andb_true_iff in Hw as [Hc Hw'].
  destruct (lower_or_digit_class c Hc) as [_ Hwc].
  unfold toPascalCase. simpl. rewrite Hwc. simpl.
  rewrite pascal_plain by exact Hw'. rewrite pascal_dashed by exact Hws.
  reflexivity.
Qed.

Lemma toPascalCase_dashed_words_witness :
  (["file"; "watcher"; "v2"] <> [] /\ forallb simple_word ["file"; "watcher"; "v2"] = true) /\
  toPascalCase "file-watcher-v2" = "FileWatcherV2".
Proof.
  split; [split; [discriminate|reflexivity]|].
  exact (toPascalCase_dashed_words ["file"; "watcher"; "v2"] ltac:(discriminate) eq_refl).
Defined.

End CreationFacts.

(** ** Further properties: BaseAgent's trigger after stop *)
Module AgentExtraFacts.
Import BaseAgent Describe AgentFacts.

Definition failing_run (a : Agent) : outcome jsval := Throw (JError "Error" "disk full").

(** X: once [stop()] has returned on an instance whose trigger bookkeeping
    is consistent, no later cron firing executes it: every firing leaves
    the stopped instance unchanged, and it holds no started cron task. *)
Theorem no_firing_after_stop run handleError a ts :
  task_inv a ->
  fire_all run handleError ts (fst (stop a)) = fst (stop a) /\
  task (fst (stop a)) = None /\ liveTasks (fst (stop a)) = 0%nat.
Proof.
  intros [Hl Hr].
  assert (Ht : task (fst (stop a)) = None /\ liveTasks (fst (stop a)) = 0%nat).
  { unfold stop. destruct (isRunning a) eqn:Hir; cbn.
    - destruct (task a) eqn:Hta; cbn; rewrite Hl; [split; reflexivity|].
      rewrite Hta. split; reflexivity.
    - destruct (task a) eqn:Hta.
      + exfalso. assert (Hne : Some c <> None) by discriminate.
        specialize (Hr Hne). discriminate.
      + rewrite Hl. split; reflexivity. }
  split; [|exact Ht]. destruct Ht as [Ht _].
  generalize (fst (stop a)) Ht. clear. intros b Hb.
  induction ts as [|t ts IH]; cbn; [reflexivity|].
  unfold fire at 2. rewrite Hb. exact IH.
Qed.

Definition fire_demo_config : Config := mkConfig "pinger" (JStr "monitor") (JStr "* * * * *").

Definition started_demo : Agent :=
  fst (start failing_run defaultHandleError accept_all_fields 0 (construct fire_demo_config)).

Lemma no_firing_after_stop_witness :
  task_inv started_demo /\
  fire_all failing_run defaultHandleError [60; 120; 180] (fst (stop started_demo)) = fst (stop started_demo).
Proof.
  assert (H : task_inv started_demo).
  { unfold task_inv. split; [reflexivity|intros _; reflexivity]. }
  split; [exact H|].
  exact (proj1 (no_firing_after_stop failing_run defaultHandleError started_demo [60; 120; 180] H)).
Defined.

End AgentExtraFacts.

(** ** Further properties: DataProcessorAgent's batching *)
Module DataProcessorFacts.
Import BaseAgent DataProcessor.

Section Batches.
Context {A : Type}.
Variable files : list A.
Variable b : Z.
Hypothesis Hb : 1 <= b.

Lemma slice_length i :
  0 <= i -> length (slice files i (i + b)) = Nat.min (Z.to_nat b) (length files - Z.to_nat i).
Proof.
  intros Hi. unfold slice. rewrite length_firstn, length_skipn.
  f_equal. lia.
Qed.

Lemma batches_from_concat fuel i :
  0 <= i -> Z.of_nat (length files) - i <= Z.of_nat fuel ->
  concat (batches_from files b i fuel) = skipn (Z.to_nat i) files.
Proof.
  revert i. induction fuel as [|fuel IH]; intros i Hi Hf; cbn.
  - symmetry. apply skipn_all2. lia.
  - destruct (Z.ltb_spec i (Z.of_nat (length files))) as [Hlt|Hge]; cbn.
    + rewrite IH by lia. unfold slice.
      replace (Z.to_nat (i + b)) with (Z.to_nat b + Z.to_nat i)%nat by lia.
      replace (Z.to_nat b + Z.to_nat i - Z.to_nat i)%nat with (Z.to_nat b) by lia.
      rewrite <- skipn_skipn. apply firstn_skipn.
    + symmetry. apply skipn_all2. lia.
Qed.

Lemma batches_from_sizes fuel i :
  0 <= i ->
  Forall (fun bt => bt <> [] /\ Z.of_nat (length bt) <= b) (batches_from files b i fuel) /\
  Forall (fun bt => Z.of_nat (length bt) = b) (removelast (batches_from files b i fuel)).
Proof.
  revert i. induction fuel as [|fuel IH]; intros i Hi; cbn; [split; constructor|].
  destruct (Z.ltb_spec i (Z.of_nat (length files))) as [Hlt|Hge]; [|split; constructor].
  destruct (IH (i + b) ltac:(lia)) as [IH1 IH2].
  pose proof (slice_length i Hi) as Hlen.
  split.
  - constructor; [|exact IH1]. split.
    + intros Hnil. rewrite Hnil in Hlen. cbn in Hlen. lia.
    + rewrite Hlen. lia.
  - destruct fuel as [|fuel']; cbn; [constructor|].
    destruct (i + b <? Z.of_nat (length files)) eqn:E; [|constructor].
    apply Z.ltb_lt in E.
    constructor; [rewrite Hlen; lia|].
    cbn [batches_from] in IH2. rewrite (proj2 (Z.ltb_lt _ _) E) in IH2. exact IH2.
Qed.

End Batches.

Lemma createBatches_concat {A} (files : list A) (batchSize : Z) :
  1 <= batchSize -> concat (createBatches files batchSize) = files.
Proof.
  intros Hb. unfold createBatches. rewrite (batches_from_concat files batchSize Hb) by lia.
  reflexivity.
Qed.

(** X: for a positive batch size, [createBatches(files, batchSize)] splits
    the file list into consecutive batches: concatenated they give back the
    list in order, no batch is empty or larger than [batchSize], and every
    batch but the last has exactly [batchSize] files. *)
Theorem createBatches_partition {A} (files : list A) (batchSize : Z) :
  1 <= batchSize ->
  concat (createBatches files batchSize) = files /\
  Forall (fun bt => bt <> [] /\ Z.of_nat (length bt) <= batchSize) (createBatches files batchSize) /\
  Forall (fun bt => Z.of_nat (length bt) = batchSize) (removelast (createBatches files batchSize)).
Proof.
  intros Hb. split; [apply createBatches_concat, Hb|].
  unfold createBatches. apply (batches_from_sizes files batchSize Hb). lia.
Qed.

Lemma createBatches_partition_witness :
  1 <= 2 /\ concat (createBatches ["a.json"; "b.json"; "c.json"; "d.json"; "e.json"] 2)
              = ["a.json"; "b.json"; "c.json"; "d.json"; "e.json"].
Proof.
  split; [lia|].
  exact (proj1 (createBatches_partition ["a.json"; "b.json"; "c.json"; "d.json"; "e.json"] 2
                  ltac:(lia))).
Defined.

(** Whether the promise of [processFile(file)] is fulfilled. *)
Definition succeeded (processFile : string -> outcome unit) (file : string) : bool :=
  match processFile file with Ok _ => true | Throw _ => false end.

Definition n_ok processFile (files : list string) : Z :=
  Z.of_nat (length (List.filter (succeeded processFile) files)).

Definition n_failed processFile (files : list string) : Z :=
  Z.of_nat (length (List.filter (fun f => negb (succeeded processFile f)) files)).

Definition counts_added processFile (files : list string) (dp dp' : DPAgent) : Prop :=
  processedCount dp' = processedCount dp + n_ok processFile files /\
  errorCount (dp_base dp') = errorCount (dp_base dp) + n_failed processFile files /\
  runCount (dp_base dp') = runCount (dp_base dp).

Lemma processBatch_counts processFile files dp :
  counts_added processFile files dp (processBatch processFile files dp).
Proof.
  unfold processBatch, counts_added, n_ok, n_failed. revert dp.
  induction files as [|f files IH]; intros dp; cbn; [lia|].
  destruct (IH (settle processFile dp f)) as [H1 [H2 H3]].
  unfold settle, succeeded in *. destruct (processFile f); cbn in *; rewrite ?length_cons; lia.
Qed.

Lemma batch_loop_counts processFile n batches i dp :
  counts_added processFile (concat batches) dp (fst (batch_loop processFile n i batches dp)).
Proof.
  revert i dp. induction batches as [|bt batches IH]; intros i dp; cbn.
  - unfold counts_added, n_ok, n_failed. cbn. lia.
  - set (dp0 := dp_log _ dp).
    pose proof (processBatch_counts processFile bt dp0) as Hp.
    pose proof (IH (S i) (processBatch processFile bt dp0)) as H.
    destruct (batch_loop _ _ _ _ _) as [dp' tr]. cbn in H |- *.
    unfold counts_added, n_ok, n_failed in *. rewrite !List.filter_app, !length_app.
    subst dp0. cbn in Hp. lia.
Qed.

Lemma batch_loop_sleeps processFile n batches i dp :
  (i + length batches)%nat = n ->
  snd (batch_loop processFile n i batches dp) = List.repeat (ESleep 1000) (length batches - 1).
Proof.
  revert i dp. induction batches as [|bt batches IH]; intros i dp Hn; cbn; [reflexivity|].
  set (dp0 := dp_log _ dp).
  pose proof (IH (S i) (processBatch processFile bt dp0) ltac:(cbn in Hn; lia)) as H.
  destruct (batch_loop _ _ _ _ _) as [dp' tr]. cbn in H |- *. rewrite H.
  destruct batches as [|bt' batches]; cbn in Hn |- *.
  - replace (Z.of_nat i <? Z.of_nat n - 1) with false by (symmetry; apply Z.ltb_ge; lia).
    reflexivity.
  - replace (Z.of_nat i <? Z.of_nat n - 1) with true by (symmetry; apply Z.ltb_lt; lia).
    rewrite Nat.sub_0_r. reflexivity.
Qed.

(** X: for a positive batch size, one processing cycle over the listed
    files settles each file exactly once: [processedCount] grows by the
    files processed and the [errorCount] BaseAgent reports grows by the
    files that failed (so for this agent it counts files, not runs), and
    the cycle sleeps 1 s between consecutive batches and never after the
    last one. *)
Theorem processFiles_accounting processFile (batchSize : Z) files dp :
  1 <= batchSize ->
  counts_added processFile files dp (fst (processFiles processFile batchSize files dp)) /\
  snd (processFiles processFile batchSize files dp) =
    List.repeat (ESleep 1000) (length (createBatches files batchSize) - 1).
Proof.
  intros Hb. unfold processFiles.
  destruct (Nat.eqb_spec (length files) 0) as [H0|H0].
  - destruct files; [|discriminate]. cbn. unfold counts_added, n_ok, n_failed. cbn.
    split; [lia|reflexivity].
  - pose proof (createBatches_concat files batchSize Hb) as Hc.
    pose proof (batch_loop_counts processFile (length (createBatches files batchSize))
                  (createBatches files batchSize) 0
                  (dp_log (LInfo (cat "Found " (cat (pretty (length files)) " files to process"))) dp))
      as Hcount.
    pose proof (batch_loop_sleeps processFile (length (createBatches files batchSize))
                  (createBatches files batchSize) 0
                  (dp_log (LInfo (cat "Found " (cat (pretty (length files)) " files to process"))) dp)
                  eq_refl) as Hsl.
    destruct (batch_loop _ _ _ _ _) as [dp' tr]. cbn in *.
    rewrite Hc in Hcount. split; [|exact Hsl].
    unfold counts_added in *. cbn in *. exact Hcount.
Qed.

Definition demo_processFile (file : string) : outcome unit :=
  if String.eqb file "bad.json" then Throw (JError "SyntaxError" "Unexpected token") else Ok tt.

Definition demo_dp : DPAgent :=
  mkDPAgent (construct (mkConfig "data-processor" (JStr "data-processor") JUndefined)) 0.

Lemma processFiles_accounting_witness :
  (1 <= 2) /\
  snd (processFiles demo_processFile 2 ["a.json"; "bad.json"; "c.json"] demo_dp) = [ESleep 1000] /\
  processedCount (fst (processFiles demo_processFile 2 ["a.json"; "bad.json"; "c.json"] demo_dp)) = 2.
Proof.
  destruct (processFiles_accounting demo_processFile 2 ["a.json"; "bad.json"; "c.json"] demo_dp
              ltac:(lia)) as [[Hp _] Hs].
  split; [lia|split].
  - rewrite Hs. reflexivity.
  - rewrite Hp. reflexivity.
Defined.

End DataProcessorFacts.

(** ** Further properties: FileWatcherAgent's event log *)
Module FileWatcherFacts.
Import BaseAgent FileWatcher.

(** The events recorded for the notifications that pass the filter, oldest
    first. *)
Definition kept_events (shouldProcessFile : string -> bool) (getFileSize : string -> jsval)
    (notes : list (string * string * Z)) : list FileEvent :=
  map (fun '(t, p, now) => mkFileEvent t p now (getFileSize p))
      (List.filter (fun '(t, p, now) => shouldProcessFile p) notes).

Lemma handleFileEvent_events shouldProcessFile getFileSize processFileEvent now t p fw :
  let fw' := handleFileEvent shouldProcessFile getFileSize processFileEvent now t p fw in
  maxEvents fw' = maxEvents fw /\
  fileEvents fw' = if shouldProcessFile p
                   then firstn (maxEvents fw) (mkFileEvent t p now (getFileSize p) :: fileEvents fw)
                   else fileEvents fw.
Proof.
  unfold handleFileEvent. destruct (shouldProcessFile p); cbn; [|split; reflexivity].
  destruct (processFileEvent (mkFileEvent t p now (getFileSize p))); cbn; split; try reflexivity;
  (destruct (Nat.leb_spec (maxEvents fw) (length (fileEvents fw))) as [H|H];
   [reflexivity|symmetry; apply firstn_all2; cbn; lia]).
Qed.

Lemma firstn_app_firstn {A} (m : nat) (x y : list A) :
  firstn m (x ++ firstn m y) = firstn m (x ++ y).
Proof.
  rewrite !firstn_app, firstn_firstn. f_equal. f_equal. lia.
Qed.

(** X: [handleFileEvent] keeps [fileEvents] as the most recent recorded
    events, newest first, cut to [maxEvents]: after any sequence of file
    notifications, the list is the notifications that passed the extension
    filter in reverse order followed by the earlier events, truncated to
    [maxEvents]; notifications the filter rejects leave no trace. *)
Theorem fileEvents_newest_first_capped shouldProcessFile getFileSize processFileEvent notes fw :
  (length (fileEvents fw) <= maxEvents fw)%nat ->
  let fw' := handleFileEvents shouldProcessFile getFileSize processFileEvent notes fw in
  fileEvents fw' =
    firstn (maxEvents fw) (rev (kept_events shouldProcessFile getFileSize notes) ++ fileEvents fw) /\
  (length (fileEvents fw') <= maxEvents fw)%nat.
Proof.
  intros Hle. cbn zeta.
  assert (Heq : fileEvents (handleFileEvents shouldProcessFile getFileSize processFileEvent notes fw) =
    firstn (maxEvents fw) (rev (kept_events shouldProcessFile getFileSize notes) ++ fileEvents fw)).
  { unfold handleFileEvents, kept_events. revert fw Hle.
    induction notes as [|[[t p] now] notes IH]; intros fw Hle; cbn.
    - symmetry. apply firstn_all2. exact Hle.
    - destruct (handleFileEvent_events shouldProcessFile getFileSize processFileEvent now t p fw)
        as [Hm He].
      rewrite IH.
      + rewrite Hm, He. destruct (shouldProcessFile p); cbn.
        * rewrite firstn_app_firstn, <- app_assoc. reflexivity.
        * reflexivity.
      + rewrite Hm, He. destruct (shouldProcessFile p); [|exact Hle].
        rewrite length_firstn. lia. }
  split; [exact Heq|]. rewrite Heq, length_firstn. lia.
Qed.

Definition demo_watcher : FWAgent :=
  mkFWAgent (construct (mkConfig "file-watcher" (JStr "file-watcher") JUndefined)) [] 1000.

Definition demo_filter (p : string) : bool := negb (String.eqb p "notes.tmp").

Lemma fileEvents_newest_first_capped_witness :
  (length (fileEvents demo_watcher) <= maxEvents demo_watcher)%nat /\
  map ev_path (fileEvents (handleFileEvents demo_filter (fun _ => JNum 10) (fun _ => Ok tt)
     [("add", "a.txt", 1); ("add", "notes.tmp", 2); ("change", "a.txt", 3)] demo_watcher))
  = ["a.txt"; "a.txt"].
Proof.
  assert (H : (length (fileEvents demo_watcher) <= maxEvents demo_watcher)%nat) by (cbn; lia).
  split; [exact H|].
  rewrite (proj1 (fileEvents_newest_first_capped demo_filter (fun _ => JNum 10) (fun _ => Ok tt)
     [("add", "a.txt", 1); ("add", "notes.tmp", 2); ("change", "a.txt", 3)] demo_watcher H)).
  reflexivity.
Defined.

End FileWatcherFacts.

(** ** Further properties: ApiMonitorAgent's consecutive-failure alerts *)
Module ApiMonitorFacts.
Import BaseAgent AgentManager ManagerFacts ApiMonitor.

Definition endpointKey (ep : Endpoint) : string := cat (ep_name ep) (cat "-" (ep_url ep)).

Lemma monitor_ok_step status t0 t1 ep s :
  let s' := monitorEndpoint (Ok status) t0 t1 ep s in
  failureCalls s' = failureCalls s /\ alertPosts s' = alertPosts s /\
  consecutiveFailures s' = map_set (endpointKey ep) 0 (consecutiveFailures s).
Proof.
  unfold monitorEndpoint. cbn zeta.
  destruct (isResponseHealthy status ep); repeat split; reflexivity.
Qed.

Lemma monitor_error_step e t0 t1 ep s c :
  map_get (endpointKey ep) (consecutiveFailures s) = Some c \/
  (map_get (endpointKey ep) (consecutiveFailures s) = None /\ c = 0) ->
  0 <= c ->
  let s' := monitorEndpoint (Throw e) t0 t1 ep s in
  consecutiveFailures s' = map_set (endpointKey ep) (c + 1) (consecutiveFailures s) /\
  alertThreshold s' = alertThreshold s /\ alertWebhook s' = alertWebhook s /\
  failureCalls s' = failureCalls s ++
    (if alertThreshold s <=? c + 1 then [(ep_name ep, c + 1)] else []) /\
  alertPosts s' = alertPosts s ++
    (if (alertThreshold s <=? c + 1) && truthy (alertWebhook s) then [(ep_name ep, c + 1)] else []).
Proof.
  intros Hc Hpos. unfold monitorEndpoint. cbn zeta.
  assert (Hold : match map_get (cat (ep_name ep) (cat "-" (ep_url ep))) (consecutiveFailures s) with
                 | Some v => if v =? 0 then 0 else v
                 | None => 0
                 end = c).
  { unfold endpointKey in Hc. destruct Hc as [H|[H ->]]; rewrite H; [|reflexivity].
    destruct (Z.eqb_spec c 0); lia. }
  rewrite Hold. cbn.
  destruct (alertThreshold s <=? c + 1); cbn.
  - unfold handleEndpointFailure. cbn.
    destruct (truthy (alertWebhook s)); cbn; rewrite ?app_nil_r; repeat split; reflexivity.
  - rewrite ?app_nil_r. repeat split; reflexivity.
Qed.

(** X: an endpoint whose requests resolve, whatever the HTTP status (even
    an unhealthy 500), never triggers [handleEndpointFailure] or a webhook
    alert, and its consecutive-failure counter is 0 afterwards: only thrown
    request errors (network errors, timeouts) count as failures. *)
Theorem responses_never_alert ep (resps : list (Z * Z * Z)) s :
  let s' := monitorMany ep (map (fun '(status, t0, t1) => (Ok status, t0, t1)) resps) s in
  failureCalls s' = failureCalls s /\ alertPosts s' = alertPosts s /\
  (resps <> [] -> map_get (endpointKey ep) (consecutiveFailures s') = Some 0).
Proof.
  cbn zeta. unfold monitorMany. revert s.
  induction resps as [|[[status t0] t1] resps IH]; intros s; cbn [map fold_left].
  - split; [reflexivity|split; [reflexivity|intros H; contradiction H; reflexivity]].
  - destruct (monitor_ok_step status t0 t1 ep s) as [Hf [Hp Hcf]].
    destruct (IH (monitorEndpoint (Ok status) t0 t1 ep s)) as [IH1 [IH2 IH3]].
    rewrite IH1, IH2, Hf, Hp. split; [reflexivity|split; [reflexivity|]].
    intros _. destruct resps as [|r resps].
    + cbn [map fold_left]. rewrite Hcf. apply map_get_set_eq.
    + apply IH3. discriminate.
Qed.

Definition demo_endpoint : Endpoint := mkEndpoint "billing" "https://billing.local/health" JUndefined.

Definition demo_api : ApiAgent :=
  mkApiAgent (construct (mkConfig "api-monitor" (JStr "api-monitor") JUndefined))
    (JStr "https://hooks.local/alert") 3 [] [] [] [].

Lemma responses_never_alert_witness :
  ([(500, 0, 40); (503, 60, 90)] <> []) /\
  map_get (endpointKey demo_endpoint)
    (consecutiveFailures (monitorMany demo_endpoint
       (map (fun '(status, t0, t1) => (Ok status, t0, t1)) [(500, 0, 40); (503, 60, 90)]) demo_api))
  = Some 0.
Proof.
  assert (H : [(500, 0, 40); (503, 60, 90)] <> []) by discriminate.
  split; [exact H|].
  exact (proj2 (proj2 (responses_never_alert demo_endpoint [(500, 0, 40); (503, 60, 90)] demo_api)) H).
Defined.

(** X: [n] request errors in a row on an endpoint whose counter stood at
    [c] raise the counter to [c + n] and call [handleEndpointFailure] once
    for each failure count reaching [alertThreshold] (3), in order, with
    that count; each call also posts to the webhook when [alertWebhook] is
    set. From a fresh endpoint, the 3rd, 4th, ... consecutive failures
    alert, the first two do not. *)
Theorem consecutive_errors_alert ep (errs : list (jsval * Z * Z)) s c :
  map_get (endpointKey ep) (consecutiveFailures s) = Some c \/
  (map_get (endpointKey ep) (consecutiveFailures s) = None /\ c = 0) ->
  0 <= c ->
  let s' := monitorMany ep (map (fun '(e, t0, t1) => (Throw e, t0, t1)) errs) s in
  let alerts := map (fun k => (ep_name ep, k))
                  (List.filter (fun k => alertThreshold s <=? k)
                     (map (fun i => c + Z.of_nat i) (seq 1 (length errs)))) in
  failureCalls s' = failureCalls s ++ alerts /\
  alertPosts s' = alertPosts s ++ (if truthy (alertWebhook s) then alerts else []) /\
  (errs <> [] -> map_get (endpointKey ep) (consecutiveFailures s') = Some (c + Z.of_nat (length errs))).
Proof.
  cbn zeta. unfold monitorMany. revert s c.
  induction errs as [|[[e t0] t1] errs IH]; intros s c Hc Hpos; cbn [map fold_left length seq].
  - rewrite !app_nil_r. destruct (truthy (alertWebhook s)); cbn; rewrite ?app_nil_r;
      (split; [reflexivity|split; [reflexivity|intros H; contradiction H; reflexivity]]).
  - destruct (monitor_error_step e t0 t1 ep s c Hc Hpos) as [Hcf [Ht [Hw [Hf Hp]]]].
    set (s1 := monitorEndpoint (Throw e) t0 t1 ep s) in *.
    assert (Hc1 : map_get (endpointKey ep) (consecutiveFailures s1) = Some (c + 1) \/
                  (map_get (endpointKey ep) (consecutiveFailures s1) = None /\ c + 1 = 0)).
    { left. rewrite Hcf. apply map_get_set_eq. }
    destruct (IH s1 (c + 1) Hc1 ltac:(lia)) as [IH1 [IH2 IH3]].
    rewrite Ht in IH1. rewrite Ht, Hw in IH2. rewrite Hf in IH1. rewrite Hp in IH2.
    replace (map (fun i => c + 1 + Z.of_nat i) (seq 1 (length errs)))
      with (map (fun i => c + Z.of_nat i) (seq 2 (length errs))) in IH1, IH2.
    2:{ rewrite <- seq_shift, map_map. apply map_ext. intros i. lia. }
    replace (c + 1 + 0) with (c + 1) in * by lia.
    split; [|split].
    + rewrite IH1, <- app_assoc. f_equal.
      cbn. replace (c + 1) with (c + Z.of_nat 1) by lia.
      destruct (alertThreshold s <=? c + Z.of_nat 1); reflexivity.
    + rewrite IH2, <- app_assoc. f_equal.
      destruct (truthy (alertWebhook s)); cbn; rewrite ?andb_true_r, ?andb_false_r;
        [|reflexivity].
      replace (c + 1) with (c + Z.of_nat 1) by lia.
      destruct (alertThreshold s <=? c + Z.of_nat 1); reflexivity.
    + intros _. destruct errs as [|r errs].
      * cbn [map fold_left length]. rewrite Hcf, map_get_set_eq. f_equal.
      * rewrite IH3 by discriminate. f_equal. cbn [length]. lia.
Qed.

Lemma consecutive_errors_alert_witness :
  (map_get (endpointKey demo_endpoint) (consecutiveFailures demo_api) = Some 0 \/
   (map_get (endpointKey demo_endpoint) (consecutiveFailures demo_api) = None /\ 0 = 0)) /\
  failureCalls (monitorMany demo_endpoint
     (map (fun '(e, t0, t1) => (Throw e, t0, t1))
        [(JError "Error" "timeout", 0, 10000); (JError "Error" "timeout", 60, 10060);
         (JError "Error" "timeout", 120, 10120); (JError "Error" "timeout", 180, 10180)]) demo_api)
  = [("billing", 3); ("billing", 4)].
Proof.
  assert (H : map_get (endpointKey demo_endpoint) (consecutiveFailures demo_api) = Some 0 \/
              (map_get (endpointKey demo_endpoint) (consecutiveFailures demo_api) = None /\ 0 = 0))
    by (right; split; reflexivity).
  split; [exact H|].
  rewrite (proj1 (consecutive_errors_alert demo_endpoint
     [(JError "Error" "timeout", 0, 10000); (JError "Error" "timeout", 60, 10060);
      (JError "Error" "timeout", 120, 10120); (JError "Error" "timeout", 180, 10180)]
     demo_api 0 H ltac:(lia))).
  reflexivity.
Defined.

End ApiMonitorFacts.

